(** * Messenger front end: the two live pages and their message collection

    A shallow embedding of [frontend/src/app/websocket/page.tsx] and
    [frontend/src/app/sse/page.tsx].  Both pages keep one React state
    holding the ordered message collection, fill it once from
    [GET /messages], and then feed every frame of the live transport to
    [handleNewMessage].  The WebSocket page additionally keeps a
    [Set<string>] of message ids it has already seen.

    Conventions of the embedding:
    - an optional field ([_id?: string]) is an [option]; [None] is the
      JavaScript [undefined];
    - a text that arrives from the network is kept together with what
      [JSON.parse] makes of it, so that decoding is a projection;
    - a handler is a computation over a [World]: the page state, the
      console, the requests sent so far and the backend's answers;
    - a state updater handed to [setMessages] runs once, on the current
      collection, when the handler runs. *)

From stdpp Require Import gmap strings list.

Set Warnings "-clear-no-such-hyp".

(** ** Messages *)

Module Message.
Record t := mk {
  _id : option string;
  author : string;
  text : string;
  timestamp : option Z
}.

#[global] Instance eq_dec : EqDecision t.
Proof. solve_decision. Defined.
End Message.

(** [!s] is false for a string exactly when it is defined and non-empty:
    [truthy] returns the string in that case. *)
Definition truthy (s : option string) : option string :=
  match s with
  | Some v => if decide (v = "") then None else Some v
  | None => None
  end.

(** [arr.findIndex(p)], with [None] for the source's [-1]. *)
Definition findIndex {A} (P : A → Prop) `{!∀ x, Decision (P x)}
    (arr : list A) : option nat :=
  fst <$> list_find P arr.

(** [s.trim()] on byte strings: white space is the ASCII white space. *)
Fixpoint trimStart (s : string) : string :=
  match s with
  | String a s' => if Ascii.is_space a then trimStart s' else s
  | EmptyString => EmptyString
  end.

Definition trim (s : string) : string :=
  String.rev (trimStart (String.rev (trimStart s))).

(** ** The host: console, network and exceptions *)

Inductive LogEntry :=
  | console_log (label : string)
  | console_error (label : string).

Inductive Exn :=
  | TypeError (what : string)
  | SyntaxError (what : string).

Record Request := {
  method : string;
  url : string;
  headers : list (string * string);
  body : option (list (string * string))
}.

(** A text from the network with its JSON reading ([None]: not JSON).
    A text that is JSON is read at the type the page gives it: a message
    for a frame, a list of messages for the snapshot. *)
Record Wire (A : Type) := {
  raw : string;
  parsed : option A
}.
Arguments raw {A} _.
Arguments parsed {A} _.

Record Response := {
  ok : bool;
  payload : Wire (list Message.t)
}.

Inductive FetchResult :=
  | NetworkError
  | Responds (r : Response).

Record MessageEvent := { data : Wire Message.t }.

Record World (S : Type) := {
  page : S;
  console : list LogEntry;
  sent : list Request;
  backend : Request → FetchResult
}.
Arguments page {S} _.
Arguments console {S} _.
Arguments sent {S} _.
Arguments backend {S} _.

Inductive Completion (A : Type) :=
  | Normal (a : A)
  | Throw (e : Exn).
Arguments Normal {A} a.
Arguments Throw {A} e.

Definition M (S A : Type) : Type := World S → Completion A * World S.

Section Host.
Context {S : Type}.

#[export] Instance M_ret : MRet (M S) := λ A a w, (Normal a, w).

#[export] Instance M_bind : MBind (M S) := λ A B f m w,
  match m w with
  | (Normal a, w') => f a w'
  | (Throw e, w') => (Throw e, w')
  end.

Definition throw {A} (e : Exn) : M S A := λ w, (Throw e, w).

(** [try { m } catch (error) { h error }] *)
Definition try_catch {A} (m : M S A) (h : Exn → M S A) : M S A := λ w,
  match m w with
  | (Normal a, w') => (Normal a, w')
  | (Throw e, w') => h e w'
  end.

Definition gets {A} (f : S → A) : M S A := λ w, (Normal (f (page w)), w).

Definition modify (f : S → S) : M S unit := λ w,
  (Normal (), {| page := f (page w); console := console w;
                 sent := sent w; backend := backend w |}).

Definition emit (e : LogEntry) : M S unit := λ w,
  (Normal (), {| page := page w; console := console w ++ [e];
                 sent := sent w; backend := backend w |}).

(** [await fetch(...)]: the request leaves, and the promise either
    rejects (no answer) or resolves to a response of any status. *)
Definition fetch (req : Request) : M S Response := λ w,
  let w' := {| page := page w; console := console w;
               sent := sent w ++ [req]; backend := backend w |} in
  match backend w req with
  | NetworkError => (Throw (TypeError "Failed to fetch"), w')
  | Responds r => (Normal r, w')
  end.

(** [await response.json()] *)
Definition json (r : Response) : M S (list Message.t) :=
  match parsed (payload r) with
  | Some v => mret v
  | None => throw (SyntaxError "Unexpected token")
  end.

(** [await response.text()] *)
Definition response_text (r : Response) : M S string :=
  mret (raw (payload r)).

(** [JSON.parse(event.data) as Message] *)
Definition JSON_parse (d : Wire Message.t) : M S Message.t :=
  match parsed d with
  | Some v => mret v
  | None => throw (SyntaxError "Unexpected token")
  end.

(** The world a handler leaves behind, however it completes. *)
Definition run {A} (m : M S A) (w : World S) : World S := (m w).2.

Definition completes {A} (m : M S A) (w : World S) : Prop :=
  ∃ a, (m w).1 = Normal a.

(** The transport delivers frames one at a time, in order; a listener
    that throws has its exception reported by the host and the next
    frame is dispatched all the same. *)
Definition dispatch {E} (listener : E → M S unit) (events : list E)
    (w : World S) : World S :=
  foldl (λ w ev, run (listener ev) w) w events.
End Host.

Fixpoint forEach {S A} (arr : list A) (f : A → M S unit) : M S unit :=
  match arr with
  | [] => mret ()
  | x :: rest => f x;; forEach rest f
  end.

Definition GET (u : string) : Request :=
  {| method := "GET"; url := u; headers := []; body := None |}.

Definition json_headers : list (string * string) :=
  [("Content-Type", "application/json")].

(** ** The WebSocket page *)

Module WebSocketPage.

Record State := {
  messages : list Message.t;
  text : string;
  author : string;
  editingId : option string;
  editText : string;
  isConnected : bool;
  messageIds : gset string
}.

(** [useState]/[useRef] initial values. *)
Definition initial : State :=
  {| messages := []; text := ""; author := ""; editingId := None;
     editText := ""; isConnected := false; messageIds := ∅ |}.

Definition setMessages (v : list Message.t) : M State unit :=
  modify (λ s, {| messages := v; text := text s; author := author s;
                  editingId := editingId s; editText := editText s;
                  isConnected := isConnected s; messageIds := messageIds s |}).

Definition setText (v : string) : M State unit :=
  modify (λ s, {| messages := messages s; text := v; author := author s;
                  editingId := editingId s; editText := editText s;
                  isConnected := isConnected s; messageIds := messageIds s |}).

Definition setAuthor (v : string) : M State unit :=
  modify (λ s, {| messages := messages s; text := text s; author := v;
                  editingId := editingId s; editText := editText s;
                  isConnected := isConnected s; messageIds := messageIds s |}).

Definition setEditingId (v : option string) : M State unit :=
  modify (λ s, {| messages := messages s; text := text s; author := author s;
                  editingId := v; editText := editText s;
                  isConnected := isConnected s; messageIds := messageIds s |}).

Definition setEditText (v : string) : M State unit :=
  modify (λ s, {| messages := messages s; text := text s; author := author s;
                  editingId := editingId s; editText := v;
                  isConnected := isConnected s; messageIds := messageIds s |}).

Definition setIsConnected (v : bool) : M State unit :=
  modify (λ s, {| messages := messages s; text := text s; author := author s;
                  editingId := editingId s; editText := editText s;
                  isConnected := v; messageIds := messageIds s |}).

(** [messageIds.current.add(id)] *)
Definition messageIds_add (id : string) : M State unit :=
  modify (λ s, {| messages := messages s; text := text s; author := author s;
                  editingId := editingId s; editText := editText s;
                  isConnected := isConnected s;
                  messageIds := {[id]} ∪ messageIds s |}).

(** [setMessages((prev) => ...)] with an updater that reads the id set
    and writes to it and to the console. *)
Definition setMessages_with
    (updater : list Message.t → M State (list Message.t)) : M State unit :=
  prev ← gets messages;
  next ← updater prev;
  setMessages next.

Definition loadMessages : M State unit :=
  try_catch
    (response ← fetch (GET "http://localhost:4877/messages");
     messages ← json response;
     setMessages messages;;
     forEach messages (λ msg,
       match truthy (Message._id msg) with
       | Some id => messageIds_add id
       | None => mret ()
       end))
    (λ error, emit (console_error "Failed to load messages:")).

Definition handleNewMessage (msg : Message.t) : M State unit :=
  setMessages_with (λ prev,
    match truthy (Message._id msg) with
    | None => mret (prev ++ [msg])
    | Some id =>
        seen ← gets messageIds;
        if decide (id ∈ seen) then
          (emit (console_log "Duplicate message detected, skipping:");;
           mret prev)
        else
          (messageIds_add id;;
           match findIndex (λ m, Message._id m = Message._id msg) prev with
           | Some existingIndex => mret (<[existingIndex:=msg]> prev)
           | None => mret (prev ++ [msg])
           end)
    end).

Definition onopen : M State unit :=
  emit (console_log "WebSocket connected");;
  setIsConnected true.

Definition onmessage (event : MessageEvent) : M State unit :=
  try_catch
    (msg ← JSON_parse (data event);
     emit (console_log "WebSocket received:");;
     handleNewMessage msg)
    (λ error, emit (console_error "Failed to parse WebSocket message:")).

Definition onclose : M State unit :=
  emit (console_log "WebSocket disconnected");;
  setIsConnected false.

Definition onerror : M State unit :=
  emit (console_error "WebSocket error:");;
  setIsConnected false.

Definition sendMessage : M State unit :=
  text ← gets text;
  author ← gets author;
  if bool_decide (trim text = "") || bool_decide (trim author = "")
  then mret ()
  else
    let messageText := trim text in
    let messageAuthor := trim author in
    try_catch
      (response ← fetch
         {| method := "POST"; url := "http://localhost:4877/publish";
            headers := json_headers;
            body := Some [("text", messageText); ("author", messageAuthor)] |};
       if ok response then
         (setText "";;
          emit (console_log "Message sent successfully via HTTP POST"))
       else
         (_ ← response_text response;
          emit (console_error "Failed to send message:")))
      (λ error, emit (console_error "Failed to send message:")).

Definition saveEdit (id : string) : M State unit :=
  editText ← gets editText;
  fetch {| method := "PUT"; url := "http://localhost:4877/edit/" +:+ id;
           headers := json_headers;
           body := Some [("text", editText)] |};;
  setEditingId None;;
  setEditText "".

End WebSocketPage.

(** ** The server-sent-events page *)

Module SSEPage.

Record State := {
  messages : list Message.t;
  text : string;
  author : string;
  editingId : option string;
  editText : string;
  isConnected : bool
}.

Definition initial : State :=
  {| messages := []; text := ""; author := ""; editingId := None;
     editText := ""; isConnected := false |}.

Definition setMessages (v : list Message.t) : M State unit :=
  modify (λ s, {| messages := v; text := text s; author := author s;
                  editingId := editingId s; editText := editText s;
                  isConnected := isConnected s |}).

Definition setText (v : string) : M State unit :=
  modify (λ s, {| messages := messages s; text := v; author := author s;
                  editingId := editingId s; editText := editText s;
                  isConnected := isConnected s |}).

Definition setAuthor (v : string) : M State unit :=
  modify (λ s, {| messages := messages s; text := text s; author := v;
                  editingId := editingId s; editText := editText s;
                  isConnected := isConnected s |}).

Definition setEditingId (v : option string) : M State unit :=
  modify (λ s, {| messages := messages s; text := text s; author := author s;
                  editingId := v; editText := editText s;
                  isConnected := isConnected s |}).

Definition setEditText (v : string) : M State unit :=
  modify (λ s, {| messages := messages s; text := text s; author := author s;
                  editingId := editingId s; editText := v;
                  isConnected := isConnected s |}).

Definition setIsConnected (v : bool) : M State unit :=
  modify (λ s, {| messages := messages s; text := text s; author := author s;
                  editingId := editingId s; editText := editText s;
                  isConnected := v |}).

(** [setMessages((prev) => ...)] with a pure updater. *)
Definition setMessages_with
    (updater : list Message.t → list Message.t) : M State unit :=
  prev ← gets messages;
  setMessages (updater prev).

Definition loadMessages : M State unit :=
  try_catch
    (response ← fetch (GET "http://localhost:4877/messages");
     messages ← json response;
     setMessages messages)
    (λ error, emit (console_error "Failed to load messages:")).

Definition handleNewMessage (msg : Message.t) : M State unit :=
  setMessages_with (λ prev,
    match findIndex (λ m, Message._id m = Message._id msg) prev with
    | Some idx => <[idx:=msg]> prev
    | None => prev ++ [msg]
    end).

Definition onopen : M State unit :=
  emit (console_log "SSE connected");;
  setIsConnected true.

Definition onmessage (event : MessageEvent) : M State unit :=
  msg ← JSON_parse (data event);
  handleNewMessage msg.

Definition onerror : M State unit :=
  emit (console_error "SSE error:");;
  setIsConnected false.

Definition sendMessage : M State unit :=
  text ← gets text;
  author ← gets author;
  if bool_decide (trim text = "") || bool_decide (trim author = "")
  then mret ()
  else
    (fetch {| method := "POST"; url := "http://localhost:4877/publish";
              headers := json_headers;
              body := Some [("text", text); ("author", author)] |};;
     setText "").

Definition saveEdit (id : string) : M State unit :=
  editText ← gets editText;
  fetch {| method := "PUT"; url := "http://localhost:4877/edit/" +:+ id;
           headers := json_headers;
           body := Some [("text", editText)] |};;
  setEditingId None;;
  setEditText "".

End SSEPage.

(** ** Vocabulary of the statements *)

(** The ids present in a collection, in collection order. *)
Definition present_ids (l : list Message.t) : list string :=
  omap Message._id l.

(** The ids the WebSocket page takes for ids: present and non-empty. *)
Definition truthy_ids (l : list Message.t) : list string :=
  omap (λ m, truthy (Message._id m)) l.

(** A session that has just mounted the page. *)
Definition boot {S} (s : S) (net : Request → FetchResult) : World S :=
  {| page := s; console := []; sent := []; backend := net |}.

(** Backends: one that answers every request with the same response, and
    one that cannot be reached. *)
Definition answers (r : Response) : Request → FetchResult :=
  λ _, Responds r.

Definition offline : Request → FetchResult :=
  λ _, NetworkError.

(** A 200 response carrying [l] as the message list. *)
Definition snapshot_of (l : list Message.t) : Response :=
  {| ok := true; payload := {| raw := "[...]"; parsed := Some l |} |}.

(** The world with other answers from the network from now on. *)
Definition with_backend {S} (net : Request → FetchResult) (w : World S)
    : World S :=
  {| page := page w; console := console w; sent := sent w; backend := net |}.

(** A frame whose text is the JSON of [m], and one whose text is not JSON. *)
Definition frame (m : Message.t) : MessageEvent :=
  {| data := {| raw := "{...}"; parsed := Some m |} |}.

Definition malformed : MessageEvent :=
  {| data := {| raw := "{oops"; parsed := None |} |}.

(** The states a WebSocket page can be in: it mounts, and then snapshot
    answers, transport callbacks and user actions happen in any order,
    against any backend. *)
Inductive ws_reachable : World WebSocketPage.State → Prop :=
  | ws_mount net :
      ws_reachable (boot WebSocketPage.initial net)
  | ws_network net w :
      ws_reachable w → ws_reachable (with_backend net w)
  | ws_load w :
      ws_reachable w → ws_reachable (run WebSocketPage.loadMessages w)
  | ws_frame ev w :
      ws_reachable w → ws_reachable (run (WebSocketPage.onmessage ev) w)
  | ws_open w :
      ws_reachable w → ws_reachable (run WebSocketPage.onopen w)
  | ws_close w :
      ws_reachable w → ws_reachable (run WebSocketPage.onclose w)
  | ws_error w :
      ws_reachable w → ws_reachable (run WebSocketPage.onerror w)
  | ws_type_text v w :
      ws_reachable w → ws_reachable (run (WebSocketPage.setText v) w)
  | ws_type_author v w :
      ws_reachable w → ws_reachable (run (WebSocketPage.setAuthor v) w)
  | ws_start_edit id v w :
      ws_reachable w →
      ws_reachable (run (WebSocketPage.setEditingId id;;
                         WebSocketPage.setEditText v) w)
  | ws_send w :
      ws_reachable w → ws_reachable (run WebSocketPage.sendMessage w)
  | ws_save id w :
      ws_reachable w → ws_reachable (run (WebSocketPage.saveEdit id) w).

(** What the WebSocket page maintains: no non-empty id occurs twice in
    the collection, and every such id is in the id set. *)
Definition ws_inv (s : WebSocketPage.State) : Prop :=
  NoDup (truthy_ids (WebSocketPage.messages s))
  ∧ ∀ id, id ∈ truthy_ids (WebSocketPage.messages s) →
          id ∈ WebSocketPage.messageIds s.

(** What the SSE page maintains: no id occurs twice in the collection. *)
Definition sse_inv (s : SSEPage.State) : Prop :=
  NoDup (present_ids (SSEPage.messages s)).

(** What holds of the id set in every state of the WebSocket page: it
    holds no empty string, and it holds every non-empty id that occurs
    in the collection. *)
Definition ws_tracked (s : WebSocketPage.State) : Prop :=
("" ∉ WebSocketPage.messageIds s)
  ∧ ∀ id, id ∈ truthy_ids (WebSocketPage.messages s) →
          id ∈ WebSocketPage.messageIds s.

(** The snapshot request fails: the promise rejects, or the body of the
    response is not JSON. *)
Definition snapshot_fails (net : Request → FetchResult) : Prop :=
  net (GET "http://localhost:4877/messages") = NetworkError
  ∨ ∃ r, net (GET "http://localhost:4877/messages") = Responds r
         ∧ parsed (payload r) = None.

(** A response with a failure status whose body is a JSON message list,
    and one whose body is plain text. *)
Definition refused_with (l : list Message.t) : Response :=
  {| ok := false; payload := {| raw := "[...]"; parsed := Some l |} |}.

Definition internal_error : Response :=
  {| ok := false;
     payload := {| raw := "Internal Server Error"; parsed := None |} |}.

(** Sample messages. *)
Definition msgA : Message.t := Message.mk (Some "1") "Al" "hi" (Some 100%Z).
Definition msgB : Message.t := Message.mk (Some "2") "Bo" "yo" (Some 105%Z).
Definition msgC : Message.t := Message.mk (Some "3") "Cy" "ok" (Some 110%Z).
Definition msgB' : Message.t :=
  Message.mk (Some "2") "Bo" "edited" (Some 105%Z).
Definition anon1 : Message.t := Message.mk None "Al" "first" None.
Definition anon2 : Message.t := Message.mk None "Bo" "second" None.
Definition blank : Message.t := Message.mk (Some "") "Al" "hi" None.

(** ** The rest of the pages: life cycle, rendering, navigation *)

(** The signals of a transport.  The WebSocket page listens to [onopen],
    [onclose] and [onerror]; the SSE page listens to [onopen] and
    [onerror], and closes the stream itself in the clean-up function that
    [setupSSE] returns. *)
Inductive Signal := Opened | Closed | Errored.

(** [() => { evtSource.close(); setIsConnected(false); }] *)
Definition SSE_cleanup : M SSEPage.State unit :=
  SSEPage.setIsConnected false.

Definition ws_signal (s : Signal) : M WebSocketPage.State unit :=
  match s with
  | Opened => WebSocketPage.onopen
  | Closed => WebSocketPage.onclose
  | Errored => WebSocketPage.onerror
  end.

Definition sse_signal (s : Signal) : M SSEPage.State unit :=
  match s with
  | Opened => SSEPage.onopen
  | Closed => SSE_cleanup
  | Errored => SSEPage.onerror
  end.

(** Whether the last signal of a sequence, if any, is [Opened]. *)
Definition connected_after (before : bool) (signals : list Signal) : bool :=
  match last signals with
  | Some Opened => true
  | Some _ => false
  | None => before
  end.

(** What the platform provides to rendering: [String.prototype.charAt],
    [String.prototype.toUpperCase] and
    [new Date(ms).toLocaleTimeString()]. *)
Class Platform := {
  charAt : string → nat → string;
  toUpperCase : string → string;
  toLocaleTimeString : Z → string
}.

(** The part of the rendered tree that depends on the state: values,
    flags and the handlers bound to the elements. *)
Inductive Bubble (S : Type) :=
  | Editor (value : string)
           (onChange : string → M S unit)
           (onKeyPress : option (string → M S unit))
           (onSave : M S unit)
           (onCancel : option (M S unit))
  | Body (shown : string) (onEdit : option (M S unit)).
Arguments Editor {S} _ _ _ _ _.
Arguments Body {S} _ _.

Record ChatRow (S : Type) := {
  key : option string;
  chat_end : bool;
  avatar : string;
  header : string;
  time : string;
  bubble : Bubble S
}.
Arguments key {S} _.
Arguments chat_end {S} _.
Arguments avatar {S} _.
Arguments header {S} _.
Arguments time {S} _.
Arguments bubble {S} _.

Inductive MessageArea (S : Type) :=
  | NoMessagesYet
  | Chat (rows : list (ChatRow S)).
Arguments NoMessagesYet {S}.
Arguments Chat {S} _.

Record View (S : Type) := {
  area : MessageArea S;
  author_value : string;
  author_onChange : string → M S unit;
  text_value : string;
  text_onChange : string → M S unit;
  text_onKeyPress : string → M S unit;
  send_onClick : M S unit;
  send_disabled : bool
}.
Arguments area {S} _.
Arguments author_value {S} _.
Arguments author_onChange {S} _.
Arguments text_value {S} _.
Arguments text_onChange {S} _.
Arguments text_onKeyPress {S} _.
Arguments send_onClick {S} _.
Arguments send_disabled {S} _.

Definition is_editor {S} (b : Bubble S) : bool :=
  match b with Editor _ _ _ _ _ => true | Body _ _ => false end.

Definition rows_of {S} (a : MessageArea S) : list (ChatRow S) :=
  match a with NoMessagesYet => [] | Chat rows => rows end.

(** The rows that show the edit box. *)
Definition editors {S} (v : View S) : list (ChatRow S) :=
  filter (λ r, is_editor (bubble r) = true) (rows_of (area v)).

Section rendering.
Context `{Platform}.

(** [formatTimestamp]: [!timestamp] holds for [undefined] and for [0]. *)
Definition formatTimestamp (timestamp : option Z) : string :=
  match timestamp with
  | None => ""
  | Some t => if decide (t = 0%Z) then "" else toLocaleTimeString (t * 1000)
  end.

(** One [<div className="chat ...">] of the WebSocket page.  The edit box
    is rendered when [editingId === message._id]; [null] is not
    [undefined], so both sides are strings there, and [message._id!] is
    that string. *)
Definition ws_row (s : WebSocketPage.State) (message : Message.t)
    : ChatRow WebSocketPage.State :=
  {| key := Message._id message;
     chat_end := bool_decide (Message.author message = WebSocketPage.author s);
     avatar := toUpperCase (charAt (Message.author message) 0);
     header := Message.author message;
     time := formatTimestamp (Message.timestamp message);
     bubble :=
       match WebSocketPage.editingId s, Message._id message with
       | Some editing, Some id =>
           if decide (editing = id) then
             Editor (WebSocketPage.editText s)
               WebSocketPage.setEditText
               (Some (λ k, if decide (k = "Enter")
                           then WebSocketPage.saveEdit id else mret ()))
               (WebSocketPage.saveEdit id)
               (Some (WebSocketPage.setEditingId None))
           else
             Body (Message.text message)
               (if decide (Message.author message = WebSocketPage.author s)
                then Some (WebSocketPage.setEditingId
                             (truthy (Message._id message));;
                           WebSocketPage.setEditText (Message.text message))
                else None)
       | _, _ =>
           Body (Message.text message)
             (if decide (Message.author message = WebSocketPage.author s)
              then Some (WebSocketPage.setEditingId
                           (truthy (Message._id message));;
                         WebSocketPage.setEditText (Message.text message))
              else None)
       end |}.

Definition ws_view (s : WebSocketPage.State) : View WebSocketPage.State :=
  {| area := match WebSocketPage.messages s with
             | [] => NoMessagesYet
             | messages => Chat (ws_row s <$> messages)
             end;
     author_value := WebSocketPage.author s;
     author_onChange := WebSocketPage.setAuthor;
     text_value := WebSocketPage.text s;
     text_onChange := WebSocketPage.setText;
     text_onKeyPress := λ k, if decide (k = "Enter")
                             then WebSocketPage.sendMessage else mret ();
     send_onClick := WebSocketPage.sendMessage;
     send_disabled := bool_decide (trim (WebSocketPage.text s) = "")
                      || bool_decide (trim (WebSocketPage.author s) = "") |}.

(** The SSE page renders the same tree, except that its edit box has no
    key handler and no cancel button. *)
Definition sse_row (s : SSEPage.State) (message : Message.t)
    : ChatRow SSEPage.State :=
  {| key := Message._id message;
     chat_end := bool_decide (Message.author message = SSEPage.author s);
     avatar := toUpperCase (charAt (Message.author message) 0);
     header := Message.author message;
     time := formatTimestamp (Message.timestamp message);
     bubble :=
       match SSEPage.editingId s, Message._id message with
       | Some editing, Some id =>
           if decide (editing = id) then
             Editor (SSEPage.editText s) SSEPage.setEditText None
               (SSEPage.saveEdit id) None
           else
             Body (Message.text message)
               (if decide (Message.author message = SSEPage.author s)
                then Some (SSEPage.setEditingId
                             (truthy (Message._id message));;
                           SSEPage.setEditText (Message.text message))
                else None)
       | _, _ =>
           Body (Message.text message)
             (if decide (Message.author message = SSEPage.author s)
              then Some (SSEPage.setEditingId
                           (truthy (Message._id message));;
                         SSEPage.setEditText (Message.text message))
              else None)
       end |}.

Definition sse_view (s : SSEPage.State) : View SSEPage.State :=
  {| area := match SSEPage.messages s with
             | [] => NoMessagesYet
             | messages => Chat (sse_row s <$> messages)
             end;
     author_value := SSEPage.author s;
     author_onChange := SSEPage.setAuthor;
     text_value := SSEPage.text s;
     text_onChange := SSEPage.setText;
     text_onKeyPress := λ k, if decide (k = "Enter")
                             then SSEPage.sendMessage else mret ();
     send_onClick := SSEPage.sendMessage;
     send_disabled := bool_decide (trim (SSEPage.text s) = "")
                      || bool_decide (trim (SSEPage.author s) = "") |}.
End rendering.

(** A platform for the examples: ASCII characters only. *)
Definition ascii_upper (a : Strings.Ascii.ascii) : Strings.Ascii.ascii :=
  let n := Strings.Ascii.nat_of_ascii a in
  if bool_decide (97 ≤ n ≤ 122) then Strings.Ascii.ascii_of_nat (n - 32)
  else a.

Fixpoint ascii_toUpperCase (s : string) : string :=
  match s with
  | String a s' => String (ascii_upper a) (ascii_toUpperCase s')
  | EmptyString => EmptyString
  end.

Definition ascii_platform : Platform :=
  {| charAt := λ s i, String.substring i 1 s;
     toUpperCase := ascii_toUpperCase;
     toLocaleTimeString := λ ms, "00:00:00" |}.

(** [Navigation]: the two tabs, as rendered for a path name. *)
Record Tab := {
  href : string;
  className : string;
  label : string
}.

Definition Navigation (pathname : string) : list Tab :=
  [ {| href := "/websocket";
       className := "tab tab-lg tab-bordered "
                    +:+ (if decide (pathname = "/websocket")
                         then "tab-active" else "");
       label := "🔌 WebSocket" |};
    {| href := "/sse";
       className := "tab tab-lg tab-bordered "
                    +:+ (if decide (pathname = "/sse")
                         then "tab-active" else "");
       label := "📡 SSE" |} ].

Definition tab_active (t : Tab) : Prop :=
  className t = "tab tab-lg tab-bordered tab-active".

(** What can happen to a mounted WebSocket page, one thing at a time. *)
Inductive WsAction :=
  | Network (net : Request → FetchResult)
  | LoadMessages
  | Frame (event : MessageEvent)
  | Transport (s : Signal)
  | TypeText (v : string)
  | TypeAuthor (v : string)
  | ClickEdit (message : Message.t)
  | TypeEdit (v : string)
  | CancelEdit
  | SendMessage
  | SaveEdit (id : string).

Definition ws_perform (a : WsAction) : M WebSocketPage.State unit :=
  match a with
  | Network net => λ w, (Normal (), with_backend net w)
  | LoadMessages => WebSocketPage.loadMessages
  | Frame event => WebSocketPage.onmessage event
  | Transport s => ws_signal s
  | TypeText v => WebSocketPage.setText v
  | TypeAuthor v => WebSocketPage.setAuthor v
  | ClickEdit message =>
      WebSocketPage.setEditingId (truthy (Message._id message));;
      WebSocketPage.setEditText (Message.text message)
  | TypeEdit v => WebSocketPage.setEditText v
  | CancelEdit => WebSocketPage.setEditingId None
  | SendMessage => WebSocketPage.sendMessage
  | SaveEdit id => WebSocketPage.saveEdit id
  end.

(** The messages of the frames that decode, in order. *)
Definition decoded (events : list MessageEvent) : list Message.t :=
  omap (λ ev, parsed (data ev)) events.



(** The first entry of a collection that carries a given id. *)
Definition entry_of (id : option string) (l : list Message.t)
    : option Message.t :=
  snd <$> list_find (λ m, Message._id m = id) l.

(** What the user has typed and is editing. *)
Definition ws_inputs (s : WebSocketPage.State)
    : string * string * option string * string :=
  (WebSocketPage.text s, WebSocketPage.author s,
   WebSocketPage.editingId s, WebSocketPage.editText s).

Definition sse_inputs (s : SSEPage.State)
    : string * string * option string * string :=
  (SSEPage.text s, SSEPage.author s, SSEPage.editingId s, SSEPage.editText s).

(** ** Proof automation: unfolding the host and the handlers *)

Ltac unfold_host :=
  unfold run, completes, try_catch, throw, gets, modify, emit, fetch, json,
    response_text, JSON_parse, mbind, M_bind, mret, M_ret in *.

Ltac unfold_ws :=
  unfold WebSocketPage.onmessage, WebSocketPage.handleNewMessage,
    WebSocketPage.loadMessages, WebSocketPage.sendMessage,
    WebSocketPage.saveEdit, WebSocketPage.onopen, WebSocketPage.onclose,
    WebSocketPage.onerror, WebSocketPage.setMessages_with,
    WebSocketPage.setMessages, WebSocketPage.setText,
    WebSocketPage.setAuthor, WebSocketPage.setEditingId,
    WebSocketPage.setEditText, WebSocketPage.setIsConnected,
    WebSocketPage.messageIds_add in *.

Ltac unfold_sse :=
  unfold SSEPage.onmessage, SSEPage.handleNewMessage, SSEPage.loadMessages,
    SSEPage.sendMessage, SSEPage.saveEdit, SSEPage.onopen, SSEPage.onerror,
    SSEPage.setMessages_with, SSEPage.setMessages, SSEPage.setText,
    SSEPage.setAuthor, SSEPage.setEditingId, SSEPage.setEditText,
    SSEPage.setIsConnected in *.

Ltac run_handler :=
  unfold_ws; unfold_sse; unfold_host; simpl;
  repeat (case_match; simpl in *; simplify_eq); try done.

(** * Properties *)

(** ** Arrays: [findIndex] and assignment at an index *)

Section arrays.
Context {A : Type} (P : A → Prop) `{!∀ x, Decision (P x)}.
Implicit Types (l : list A) (x : A) (i : nat).

Lemma findIndex_Some l i :
  findIndex P l = Some i ↔
  ∃ x, l !! i = Some x ∧ P x ∧ ∀ j y, l !! j = Some y → j < i → ¬ P y.
Proof.
  unfold findIndex. split.
  - intros [[j x] [Hf ->]]%fmap_Some. apply list_find_Some in Hf. eauto.
  - intros (x & Hx). apply (list_find_Some P) in Hx. by rewrite Hx.
Qed.

Lemma findIndex_None l :
  findIndex P l = None ↔ Forall (λ x, ¬ P x) l.
Proof. unfold findIndex. by rewrite fmap_None, list_find_None. Qed.

(** The first hit sits right after a prefix without hits. *)
Lemma findIndex_middle l1 x l2 :
  Forall (λ y, ¬ P y) l1 → P x →
  findIndex P (l1 ++ x :: l2) = Some (length l1).
Proof.
  intros Hl1 Hx. apply findIndex_Some. exists x. split_and!.
  - by rewrite list_lookup_middle.
  - done.
  - intros j y Hj Hlt. rewrite lookup_app_l in Hj by done.
    eapply Forall_lookup_1 in Hl1; eauto.
Qed.

Lemma findIndex_split l i :
  findIndex P l = Some i →
  ∃ l1 x l2, l = l1 ++ x :: l2 ∧ length l1 = i ∧ P x ∧
             Forall (λ y, ¬ P y) l1.
Proof.
  intros (x & Hi & Hx & Hmin)%findIndex_Some.
  exists (take i l), x, (drop (S i) l). split_and!.
  - by rewrite take_drop_middle.
  - apply length_take_le. apply lookup_lt_Some in Hi. lia.
  - done.
  - apply Forall_lookup. intros j y Hj.
    apply lookup_take_Some in Hj as [Hj ?]. eauto.
Qed.

Lemma insert_middle l1 x y l2 :
  <[length l1 := y]> (l1 ++ x :: l2) = l1 ++ y :: l2.
Proof.
  replace (length l1) with (length l1 + 0) by lia.
  by rewrite insert_app_r.
Qed.

Lemma insert_past_end l x y :
  <[length l := y]> (l ++ [x]) = l ++ [y].
Proof. apply insert_middle. Qed.
End arrays.

Lemma omap_insert_same {A B} (f : A → option B) (l : list A) i old new :
  l !! i = Some old → f old = f new → omap f (<[i := new]> l) = omap f l.
Proof.
  revert i. induction l as [|x l IH]; intros [|i] Hi Hf; simplify_eq/=.
  - by rewrite Hf.
  - by rewrite (IH i).
Qed.

Lemma omap_snoc {A B} (f : A → option B) (l : list A) x :
  omap f (l ++ [x]) = omap f l ++ option_list (f x).
Proof. rewrite omap_app. simpl. by destruct (f x). Qed.

Lemma truthy_Some s v : truthy s = Some v → s = Some v ∧ v ≠ "".
Proof. destruct s as [u|]; simpl; [|done]. case_decide; naive_solver. Qed.

Lemma truthy_ids_present l v : v ∈ truthy_ids l → v ∈ present_ids l.
Proof.
  unfold truthy_ids, present_ids. rewrite !list_elem_of_omap.
  intros (m & ? & [? _]%truthy_Some). eauto.
Qed.

Lemma truthy_of_present s v : s = Some v → v ≠ "" → truthy s = Some v.
Proof. intros -> ?. simpl. by case_decide. Qed.

(** ** Running handlers *)

Lemma dispatch_nil {S E} (h : E → M S unit) w : dispatch h [] w = w.
Proof. done. Qed.

Lemma dispatch_cons {S E} (h : E → M S unit) ev evs w :
  dispatch h (ev :: evs) w = dispatch h evs (run (h ev) w).
Proof. done. Qed.

Lemma dispatch_app {S E} (h : E → M S unit) evs1 evs2 w :
  dispatch h (evs1 ++ evs2) w = dispatch h evs2 (dispatch h evs1 w).
Proof. apply foldl_app. Qed.

(** *** WebSocket page: the three ways [handleNewMessage] can go *)

Section ws_apply.
Import WebSocketPage.
Implicit Types (w : World State) (msg : Message.t).

Lemma ws_apply_no_id w msg :
  truthy (Message._id msg) = None →
  messages (page (run (handleNewMessage msg) w)) = messages (page w) ++ [msg]
  ∧ messageIds (page (run (handleNewMessage msg) w)) = messageIds (page w)
  ∧ console (run (handleNewMessage msg) w) = console w.
Proof. intros H. unfold_ws. unfold_host. simpl. by rewrite H. Qed.

Lemma ws_apply_tracked w msg id :
  truthy (Message._id msg) = Some id →
  id ∈ messageIds (page w) →
  page (run (handleNewMessage msg) w) = page w
  ∧ console (run (handleNewMessage msg) w)
    = console w ++ [console_log "Duplicate message detected, skipping:"].
Proof.
  intros H Hin. unfold_ws. unfold_host. simpl. rewrite H.
  rewrite decide_True by done. simpl. by destruct w as [[] ? ? ?].
Qed.

Lemma ws_apply_fresh w msg id :
  truthy (Message._id msg) = Some id →
  id ∉ messageIds (page w) →
  messages (page (run (handleNewMessage msg) w))
  = match findIndex (λ m, Message._id m = Message._id msg)
            (messages (page w)) with
    | Some existingIndex => <[existingIndex := msg]> (messages (page w))
    | None => messages (page w) ++ [msg]
    end
  ∧ messageIds (page (run (handleNewMessage msg) w))
    = {[id]} ∪ messageIds (page w)
  ∧ console (run (handleNewMessage msg) w) = console w.
Proof.
  intros H Hin. unfold_ws. unfold_host. simpl. rewrite H.
  rewrite decide_False by done. simpl.
  by destruct (findIndex _ (messages (page w))).
Qed.
End ws_apply.

(** *** SSE page: [handleNewMessage] *)

Lemma sse_apply w msg :
  SSEPage.messages (page (run (SSEPage.handleNewMessage msg) w))
  = match findIndex (λ m, Message._id m = Message._id msg)
            (SSEPage.messages (page w)) with
    | Some idx => <[idx := msg]> (SSEPage.messages (page w))
    | None => SSEPage.messages (page w) ++ [msg]
    end.
Proof. done. Qed.

(** ** Updates in place *)

(** On the SSE page an event replaces the first entry that carries its
    id, where that entry stands. *)
Lemma sse_update_in_place w msg l1 old l2 :
  SSEPage.messages (page w) = l1 ++ old :: l2 →
  Message._id old = Message._id msg →
  Forall (λ m, Message._id m ≠ Message._id msg) l1 →
  SSEPage.messages (page (run (SSEPage.handleNewMessage msg) w))
  = l1 ++ msg :: l2.
Proof.
  intros Hl Hold Hl1. rewrite sse_apply, Hl.
  rewrite (findIndex_middle _ l1 old l2) by done.
  apply insert_middle.
Qed.

(** The WebSocket page does the same, but only for an id it has not
    tracked yet. *)
Lemma ws_update_in_place_untracked w msg id l1 old l2 :
  truthy (Message._id msg) = Some id →
  id ∉ WebSocketPage.messageIds (page w) →
  WebSocketPage.messages (page w) = l1 ++ old :: l2 →
  Message._id old = Message._id msg →
  Forall (λ m, Message._id m ≠ Message._id msg) l1 →
  WebSocketPage.messages (page (run (WebSocketPage.handleNewMessage msg) w))
  = l1 ++ msg :: l2.
Proof.
  intros Hid Hnew Hl Hold Hl1.
  destruct (ws_apply_fresh w msg id Hid Hnew) as (-> & _).
  rewrite Hl, (findIndex_middle _ l1 old l2) by done.
  apply insert_middle.
Qed.

(** C1. An event whose id is already in the collection should replace
    that entry in place, on both pages.  The SSE page does: applying
    [{_id: 2, text: edited}] to [[A; B; C]] gives [[A; B'; C]].  The
    WebSocket page, once it has loaded [[A; B; C]], has the three ids in
    its id set and returns the collection as it is. *)
Theorem C1_websocket_skips_edit_of_loaded_message :
  let ws := run WebSocketPage.loadMessages
              (boot WebSocketPage.initial
                 (answers (snapshot_of [msgA; msgB; msgC]))) in
  let sse := run SSEPage.loadMessages
               (boot SSEPage.initial
                  (answers (snapshot_of [msgA; msgB; msgC]))) in
  WebSocketPage.messages (page ws) = [msgA; msgB; msgC]
  ∧ WebSocketPage.messages
      (page (run (WebSocketPage.onmessage (frame msgB')) ws))
    = [msgA; msgB; msgC]
  ∧ SSEPage.messages (page sse) = [msgA; msgB; msgC]
  ∧ SSEPage.messages (page (run (SSEPage.onmessage (frame msgB')) sse))
    = [msgA; msgB'; msgC].
Proof. by vm_compute. Qed.

(** ** Events without an id *)

(** On the WebSocket page an event without an id (or with the empty
    string for an id) is appended, whatever the collection holds. *)
Lemma ws_no_id_appends w msg :
  Message._id msg = None →
  WebSocketPage.messages (page (run (WebSocketPage.handleNewMessage msg) w))
  = WebSocketPage.messages (page w) ++ [msg].
Proof. intros H. apply ws_apply_no_id. by rewrite H. Qed.

(** On the SSE page the id of such an event, [undefined], is looked up
    like any other: the event replaces the first entry without an id. *)
Lemma sse_no_id_replaces w msg l1 old l2 :
  Message._id msg = None →
  SSEPage.messages (page w) = l1 ++ old :: l2 →
  Message._id old = None →
  Forall (λ m, is_Some (Message._id m)) l1 →
  SSEPage.messages (page (run (SSEPage.handleNewMessage msg) w))
  = l1 ++ msg :: l2.
Proof.
  intros Hmsg Hl Hold Hl1. apply (sse_update_in_place w msg l1 old l2).
  - done.
  - congruence.
  - eapply Forall_impl; [done|]. intros m [v Hv]. congruence.
Qed.

(** C2. Two events without an id should leave two entries, on both
    pages.  On the WebSocket page they do; on the SSE page the second
    one overwrites the first and one entry is left. *)
Theorem C2_sse_merges_events_without_id :
  WebSocketPage.messages
    (page (dispatch WebSocketPage.onmessage [frame anon1; frame anon2]
             (boot WebSocketPage.initial offline)))
  = [anon1; anon2]
  ∧ SSEPage.messages
      (page (dispatch SSEPage.onmessage [frame anon1; frame anon2]
               (boot SSEPage.initial offline)))
    = [anon2].
Proof. by vm_compute. Qed.

(** ** Applying an event twice *)

Lemma sse_apply_twice w msg :
  SSEPage.messages
    (page (run (SSEPage.handleNewMessage msg)
             (run (SSEPage.handleNewMessage msg) w)))
  = SSEPage.messages (page (run (SSEPage.handleNewMessage msg) w)).
Proof.
  rewrite (sse_apply (run _ w)), (sse_apply w).
  set (P := λ m, Message._id m = Message._id msg).
  destruct (findIndex P (SSEPage.messages (page w))) as [i|] eqn:E.
  - apply findIndex_split in E as (l1 & x & l2 & -> & <- & Hx & Hl1).
    rewrite insert_middle, (findIndex_middle P l1 msg l2) by done.
    apply insert_middle.
  - apply findIndex_None in E.
    rewrite (findIndex_middle P _ msg []) by done.
    apply insert_past_end.
Qed.

Lemma ws_apply_twice w msg id :
  truthy (Message._id msg) = Some id →
  page (run (WebSocketPage.handleNewMessage msg)
          (run (WebSocketPage.handleNewMessage msg) w))
  = page (run (WebSocketPage.handleNewMessage msg) w).
Proof.
  intros Hid. destruct (decide (id ∈ WebSocketPage.messageIds (page w))).
  - destruct (ws_apply_tracked w msg id) as [Hp _]; [done..|].
    apply ws_apply_tracked with id; [done|]. by rewrite Hp.
  - destruct (ws_apply_fresh w msg id) as (_ & Hids & _); [done..|].
    apply ws_apply_tracked with id; [done|]. rewrite Hids.
    apply elem_of_union_l. by apply elem_of_singleton.
Qed.

(** C3.  Applying an event twice in a row leaves the collection that
    applying it once leaves: on the SSE page for every event with an id,
    on the WebSocket page for every event with a non-empty id. *)
Theorem C3_apply_twice_is_apply_once :
  (∀ (w : World WebSocketPage.State) msg,
     is_Some (Message._id msg) → Message._id msg ≠ Some "" →
     WebSocketPage.messages
       (page (dispatch WebSocketPage.handleNewMessage [msg; msg] w))
     = WebSocketPage.messages
         (page (dispatch WebSocketPage.handleNewMessage [msg] w)))
  ∧ (∀ (w : World SSEPage.State) msg,
       is_Some (Message._id msg) →
       SSEPage.messages
         (page (dispatch SSEPage.handleNewMessage [msg; msg] w))
       = SSEPage.messages
           (page (dispatch SSEPage.handleNewMessage [msg] w))).
Proof.
  split.
  - intros w msg [id Hid] Hne. rewrite !dispatch_cons, !dispatch_nil.
    f_equal. apply ws_apply_twice with id.
    apply truthy_of_present; [done|]. congruence.
  - intros w msg _. rewrite !dispatch_cons, !dispatch_nil.
    apply sse_apply_twice.
Qed.

Lemma C3_apply_twice_is_apply_once_witness :
  WebSocketPage.messages
    (page (dispatch WebSocketPage.handleNewMessage [msgB'; msgB']
             (boot WebSocketPage.initial offline)))
  = WebSocketPage.messages
      (page (dispatch WebSocketPage.handleNewMessage [msgB']
               (boot WebSocketPage.initial offline)))
  ∧ SSEPage.messages
      (page (dispatch SSEPage.handleNewMessage [msgB'; msgB']
               (boot SSEPage.initial offline)))
    = SSEPage.messages
        (page (dispatch SSEPage.handleNewMessage [msgB']
                 (boot SSEPage.initial offline))).
Proof.
  split.
  - apply (proj1 C3_apply_twice_is_apply_once).
    + by eexists.
    + done.
  - apply (proj2 C3_apply_twice_is_apply_once). by eexists.
Defined.

(** C3 does not extend to the empty string on the WebSocket page: an
    event whose id is the empty string has an id, and is appended each
    time it is applied. *)
Lemma C3_counterexample_empty_string_id :
  is_Some (Message._id blank)
  ∧ WebSocketPage.messages
      (page (dispatch WebSocketPage.handleNewMessage [blank; blank]
               (boot WebSocketPage.initial offline)))
    ≠ WebSocketPage.messages
        (page (dispatch WebSocketPage.handleNewMessage [blank]
                 (boot WebSocketPage.initial offline))).
Proof. split; [by eexists|]. by vm_compute. Qed.

(** ** Loading the snapshot *)

Lemma ws_forEach_track (l : list Message.t) (w : World WebSocketPage.State) :
  let track := λ msg : Message.t,
    match truthy (Message._id msg) with
    | Some id => WebSocketPage.messageIds_add id
    | None => mret ()
    end in
  (forEach l track w).1 = Normal ()
  ∧ WebSocketPage.messages (page (run (forEach l track) w))
    = WebSocketPage.messages (page w)
  ∧ WebSocketPage.messageIds (page (run (forEach l track) w))
    = list_to_set (truthy_ids l) ∪ WebSocketPage.messageIds (page w)
  ∧ console (run (forEach l track) w) = console w
  ∧ sent (run (forEach l track) w) = sent w.
Proof.
  intros track. revert w. induction l as [|m l IH]; intros w.
  - simpl. split_and!; try done. set_solver.
  - unfold run in *. simpl. unfold mbind, M_bind.
    assert (∃ w1, track m w = (Normal (), w1)
              ∧ WebSocketPage.messages (page w1)
                = WebSocketPage.messages (page w)
              ∧ WebSocketPage.messageIds (page w1)
                = list_to_set (option_list (truthy (Message._id m)))
                  ∪ WebSocketPage.messageIds (page w)
              ∧ console w1 = console w ∧ sent w1 = sent w)
      as (w1 & -> & Hm & Hi & Hc & Hs).
    { unfold track. destruct (truthy (Message._id m)) as [id|].
      - eexists. split; [done|]. simpl. split_and!; try done. set_solver.
      - exists w. split; [done|]. simpl. split_and!; try done. set_solver. }
    destruct (IH w1) as (H1 & H2 & H3 & H4 & H5).
    rewrite H1, H2, H3, H4, H5, Hm, Hi, Hc, Hs. split_and!; try done.
    unfold truthy_ids. simpl.
    destruct (truthy (Message._id m)); simpl; set_solver.
Qed.

Lemma ws_load_success w r l :
  backend w (GET "http://localhost:4877/messages") = Responds r →
  parsed (payload r) = Some l →
  WebSocketPage.messages (page (run WebSocketPage.loadMessages w)) = l
  ∧ WebSocketPage.messageIds (page (run WebSocketPage.loadMessages w))
    = list_to_set (truthy_ids l) ∪ WebSocketPage.messageIds (page w).
Proof.
  intros Hr Hl. unfold WebSocketPage.loadMessages.
  unfold run, try_catch, mbind, M_bind, fetch, json. rewrite Hr, Hl.
  unfold mret at 1 3, M_ret at 1 3. cbv beta iota.
  unfold WebSocketPage.setMessages, modify. cbv beta iota.
  match goal with
  | |- context [forEach l ?t ?w1] =>
      destruct (ws_forEach_track l w1) as (H1 & H2 & H3 & _);
      unfold run in H2, H3; destruct (forEach l t w1) as [c w2]
  end.
  simpl in H1. subst c. by rewrite H2, H3.
Qed.

Lemma sse_load_success w r l :
  backend w (GET "http://localhost:4877/messages") = Responds r →
  parsed (payload r) = Some l →
  SSEPage.messages (page (run SSEPage.loadMessages w)) = l.
Proof.
  intros Hr Hl. unfold_sse. unfold_host. simpl. by rewrite Hr, Hl.
Qed.

(** ** One entry per id *)

Lemma ws_apply_backend w msg :
  backend (run (WebSocketPage.handleNewMessage msg) w) = backend w.
Proof.
  unfold_ws. unfold_host. simpl.
  destruct (truthy _); [|done]. case_decide; [done|]. simpl.
  by destruct (findIndex _ _).
Qed.

Lemma ws_dispatch_backend evs w :
  backend (dispatch WebSocketPage.handleNewMessage evs w) = backend w.
Proof.
  revert w. induction evs as [|ev evs IH]; intros w; [done|].
  by rewrite dispatch_cons, IH, ws_apply_backend.
Qed.

Lemma sse_dispatch_backend evs w :
  backend (dispatch SSEPage.handleNewMessage evs w) = backend w.
Proof.
  revert w. induction evs as [|ev evs IH]; intros w; [done|].
  by rewrite dispatch_cons, IH.
Qed.

Lemma truthy_ids_NoDup l : NoDup (present_ids l) → NoDup (truthy_ids l).
Proof.
  unfold present_ids. induction l as [|m l IH]; [done|]. simpl.
  unfold truthy_ids. simpl. destruct (Message._id m) as [v|]; simpl; [|done].
  intros [Hv Hl]%NoDup_cons. case_decide; [by apply IH|].
  apply NoDup_cons. split; [|by apply IH].
  intros Hin%truthy_ids_present. done.
Qed.

Lemma ws_inv_initial : ws_inv WebSocketPage.initial.
Proof. split; [constructor|]. by intros id ?%elem_of_nil. Qed.

(** Every application of an event keeps the invariant. *)
Lemma ws_inv_apply w msg :
  ws_inv (page w) →
  ws_inv (page (run (WebSocketPage.handleNewMessage msg) w)).
Proof.
  intros [Hnd Hsub]. unfold ws_inv.
  destruct (truthy (Message._id msg)) as [id|] eqn:Hid.
  - destruct (decide (id ∈ WebSocketPage.messageIds (page w))) as [Hin|Hin].
    + destruct (ws_apply_tracked w msg id Hid Hin) as [-> _]. done.
    + destruct (ws_apply_fresh w msg id Hid Hin) as (-> & -> & _).
      destruct (findIndex _ _) as [i|] eqn:E.
      * apply findIndex_Some in E as (old & Hi & Hold & _).
        unfold truthy_ids.
        rewrite (omap_insert_same _ _ i old msg) by (done || by rewrite Hold).
        split; [done|]. intros v Hv. apply elem_of_union_r. by apply Hsub.
      * unfold truthy_ids. rewrite omap_snoc, Hid. simpl. split.
        -- apply NoDup_app. split_and!; [done| |apply NoDup_singleton].
           intros v Hv ->%list_elem_of_singleton. by apply Hin, Hsub.
        -- intros v [Hv| ->%list_elem_of_singleton]%elem_of_app.
           ++ apply elem_of_union_r. by apply Hsub.
           ++ apply elem_of_union_l. by apply elem_of_singleton.
  - destruct (ws_apply_no_id w msg Hid) as (-> & -> & _).
    unfold truthy_ids. rewrite omap_snoc, Hid. simpl.
    by rewrite app_nil_r.
Qed.

Lemma ws_inv_dispatch evs w :
  ws_inv (page w) →
  ws_inv (page (dispatch WebSocketPage.handleNewMessage evs w)).
Proof.
  revert w. induction evs as [|ev evs IH]; intros w Hw; [done|].
  rewrite dispatch_cons. by apply IH, ws_inv_apply.
Qed.

(** A snapshot without repeated ids establishes it, whatever was there. *)
Lemma ws_inv_load w r l :
  backend w (GET "http://localhost:4877/messages") = Responds r →
  parsed (payload r) = Some l →
  NoDup (present_ids l) →
  ws_inv (page (run WebSocketPage.loadMessages w)).
Proof.
  intros Hr Hl Hnd. destruct (ws_load_success w r l Hr Hl) as [Hm Hi].
  unfold ws_inv. rewrite Hm, Hi. split; [by apply truthy_ids_NoDup|].
  intros id Hid. apply elem_of_union_l. by apply elem_of_list_to_set.
Qed.

Lemma sse_inv_apply w msg :
  sse_inv (page w) → sse_inv (page (run (SSEPage.handleNewMessage msg) w)).
Proof.
  unfold sse_inv. intros Hnd. rewrite sse_apply.
  destruct (findIndex _ _) as [i|] eqn:E.
  - apply findIndex_Some in E as (old & Hi & Hold & _).
    unfold present_ids. by rewrite (omap_insert_same _ _ i old msg).
  - apply findIndex_None in E. unfold present_ids. rewrite omap_snoc.
    destruct (Message._id msg) as [v|] eqn:Hv; simpl.
    + apply NoDup_app. split_and!; [done| |apply NoDup_singleton].
      intros ? (m & Hm & Hmv)%list_elem_of_omap ->%list_elem_of_singleton.
      rewrite Forall_forall in E. by apply (E m).
    + by rewrite app_nil_r.
Qed.

Lemma sse_inv_dispatch evs w :
  sse_inv (page w) → sse_inv (page (dispatch SSEPage.handleNewMessage evs w)).
Proof.
  revert w. induction evs as [|ev evs IH]; intros w Hw; [done|].
  rewrite dispatch_cons. by apply IH, sse_inv_apply.
Qed.

(** C4.  Whenever the snapshot arrives, before, between or after live
    events, and provided no id occurs twice in it, the collection holds
    at most one entry per id from then on: per id on the SSE page, per
    non-empty id on the WebSocket page. *)
Theorem C4_at_most_one_entry_per_id :
  (∀ snapshot early late,
     NoDup (present_ids snapshot) →
     NoDup (truthy_ids (WebSocketPage.messages (page
       (dispatch WebSocketPage.handleNewMessage late
          (run WebSocketPage.loadMessages
             (dispatch WebSocketPage.handleNewMessage early
                (boot WebSocketPage.initial
                   (answers (snapshot_of snapshot))))))))))
  ∧ (∀ snapshot early late,
       NoDup (present_ids snapshot) →
       NoDup (present_ids (SSEPage.messages (page
         (dispatch SSEPage.handleNewMessage late
            (run SSEPage.loadMessages
               (dispatch SSEPage.handleNewMessage early
                  (boot SSEPage.initial
                     (answers (snapshot_of snapshot)))))))))).
Proof.
  split; intros snapshot early late Hnd.
  - apply ws_inv_dispatch.
    apply (ws_inv_load _ (snapshot_of snapshot) snapshot); [|done..].
    by rewrite ws_dispatch_backend.
  - apply sse_inv_dispatch. unfold sse_inv.
    rewrite (sse_load_success _ (snapshot_of snapshot) snapshot); [done| |done].
    by rewrite sse_dispatch_backend.
Qed.

Lemma C4_at_most_one_entry_per_id_witness :
  NoDup (present_ids [msgA])
  ∧ NoDup (truthy_ids (WebSocketPage.messages (page
      (dispatch WebSocketPage.handleNewMessage [msgA; msgB]
         (run WebSocketPage.loadMessages
            (dispatch WebSocketPage.handleNewMessage []
               (boot WebSocketPage.initial
                  (answers (snapshot_of [msgA])))))))))
  ∧ NoDup (present_ids (SSEPage.messages (page
      (dispatch SSEPage.handleNewMessage [msgA; msgB]
         (run SSEPage.loadMessages
            (dispatch SSEPage.handleNewMessage []
               (boot SSEPage.initial
                  (answers (snapshot_of [msgA]))))))))).
Proof.
  assert (H : NoDup (present_ids [msgA])).
  { vm_compute. apply NoDup_singleton. }
  split; [exact H|]. split.
  - exact (proj1 C4_at_most_one_entry_per_id [msgA] [] [msgA; msgB] H).
  - exact (proj2 C4_at_most_one_entry_per_id [msgA] [] [msgA; msgB] H).
Defined.

(** C4 does not extend to the empty string on the WebSocket page: it is
    a present id, and two events carrying it leave two entries. *)
Lemma C4_counterexample_empty_string_id :
  NoDup (present_ids [])
  ∧ ¬ NoDup (present_ids (WebSocketPage.messages (page
        (dispatch WebSocketPage.handleNewMessage [blank; blank]
           (run WebSocketPage.loadMessages
              (boot WebSocketPage.initial (answers (snapshot_of [])))))))).
Proof.
  split; [constructor|]. vm_compute.
  intros [Hn _]%NoDup_cons. apply Hn. constructor.
Qed.

(** ** Arrival order *)

Lemma not_present_not_found (l : list Message.t) msg v :
  Message._id msg = Some v → v ∉ present_ids l →
  findIndex (λ m, Message._id m = Message._id msg) l = None.
Proof.
  intros Hv Hnot. apply findIndex_None, Forall_forall. intros m Hm Heq.
  apply Hnot, list_elem_of_omap. exists m. split; [done|congruence].
Qed.

Lemma ws_creates_append events : ∀ w : World WebSocketPage.State,
  Forall (λ e, is_Some (Message._id e)) events →
  NoDup (present_ids events) →
  (∀ id, id ∈ present_ids events →
         (id ∉ present_ids (WebSocketPage.messages (page w)))
         ∧ (id ∉ WebSocketPage.messageIds (page w))) →
  WebSocketPage.messages (page (dispatch WebSocketPage.handleNewMessage events w))
  = WebSocketPage.messages (page w) ++ events.
Proof.
  induction events as [|e es IH]; intros w Hall Hnd Hfresh.
  { by rewrite dispatch_nil, app_nil_r. }
  apply Forall_cons in Hall as [[v Hv] Hall]. rewrite dispatch_cons.
  unfold present_ids in Hnd, Hfresh. simpl in Hnd, Hfresh.
  rewrite Hv in Hnd, Hfresh. simpl in Hnd, Hfresh.
  apply NoDup_cons in Hnd as [Hv_es Hnd].
  destruct (Hfresh v) as [Hv_l Hv_t]; [left|].
  assert (WebSocketPage.messages
            (page (run (WebSocketPage.handleNewMessage e) w))
          = WebSocketPage.messages (page w) ++ [e]
          ∧ WebSocketPage.messageIds
              (page (run (WebSocketPage.handleNewMessage e) w))
            ⊆ {[v]} ∪ WebSocketPage.messageIds (page w)) as [Hm Hi].
  { destruct (truthy (Message._id e)) as [id|] eqn:Hid.
    - apply truthy_Some in Hid as Hid'. destruct Hid' as [? _].
      simplify_eq.
      destruct (ws_apply_fresh w e v Hid Hv_t) as (-> & -> & _).
      by rewrite (not_present_not_found _ e v).
    - destruct (ws_apply_no_id w e Hid) as (-> & -> & _).
      split; [done|]. set_solver. }
  rewrite IH, Hm; [by rewrite <- app_assoc|done..|].
  intros id Hid. rewrite Hm. destruct (Hfresh id) as [? ?]; [by right|].
  assert (id ≠ v) by (by intros ->).
  unfold present_ids. rewrite omap_snoc, Hv. simpl. split.
  - intros [?| ?%list_elem_of_singleton]%elem_of_app; done.
  - intros Hin. apply Hi in Hin. set_solver.
Qed.

Lemma sse_creates_append events : ∀ w : World SSEPage.State,
  Forall (λ e, is_Some (Message._id e)) events →
  NoDup (present_ids events) →
  (∀ id, id ∈ present_ids events →
         id ∉ present_ids (SSEPage.messages (page w))) →
  SSEPage.messages (page (dispatch SSEPage.handleNewMessage events w))
  = SSEPage.messages (page w) ++ events.
Proof.
  induction events as [|e es IH]; intros w Hall Hnd Hfresh.
  { by rewrite dispatch_nil, app_nil_r. }
  apply Forall_cons in Hall as [[v Hv] Hall]. rewrite dispatch_cons.
  unfold present_ids in Hnd, Hfresh. simpl in Hnd, Hfresh.
  rewrite Hv in Hnd, Hfresh. simpl in Hnd, Hfresh.
  apply NoDup_cons in Hnd as [Hv_es Hnd].
  assert (SSEPage.messages (page (run (SSEPage.handleNewMessage e) w))
          = SSEPage.messages (page w) ++ [e]) as Hm.
  { rewrite sse_apply, (not_present_not_found _ e v); [done..|].
    apply Hfresh. left. }
  rewrite IH, Hm; [by rewrite <- app_assoc|done..|].
  intros id Hid. rewrite Hm.
  assert (id ≠ v) by (by intros ->).
  unfold present_ids. rewrite omap_snoc, Hv. simpl.
  intros [Hin| ?%list_elem_of_singleton]%elem_of_app; [|done].
  by apply (Hfresh id); [right|].
Qed.

(** C8.  After the snapshot has been loaded, create events with
    pairwise distinct ids that are not in the snapshot are listed after
    the snapshot entries, in the order they were delivered. *)
Theorem C8_creates_are_listed_in_delivery_order :
  ∀ snapshot events,
    Forall (λ e, is_Some (Message._id e)) events →
    NoDup (present_ids events) →
    (∀ id, id ∈ present_ids events → id ∉ present_ids snapshot) →
    WebSocketPage.messages (page
      (dispatch WebSocketPage.handleNewMessage events
         (run WebSocketPage.loadMessages
            (boot WebSocketPage.initial (answers (snapshot_of snapshot))))))
    = snapshot ++ events
    ∧ SSEPage.messages (page
        (dispatch SSEPage.handleNewMessage events
           (run SSEPage.loadMessages
              (boot SSEPage.initial (answers (snapshot_of snapshot))))))
      = snapshot ++ events.
Proof.
  intros snapshot events Hall Hnd Hfresh. split.
  - destruct (ws_load_success
                (boot WebSocketPage.initial (answers (snapshot_of snapshot)))
                (snapshot_of snapshot) snapshot) as [Hm Hi]; [done..|].
    rewrite ws_creates_append, Hm; [done..|].
    intros id Hid. rewrite Hm, Hi. split; [by apply Hfresh|].
    intros [Hin%elem_of_list_to_set|Hin]%elem_of_union.
    + by apply (Hfresh id), truthy_ids_present.
    + by apply not_elem_of_empty in Hin.
  - pose proof (sse_load_success
                  (boot SSEPage.initial (answers (snapshot_of snapshot)))
                  (snapshot_of snapshot) snapshot eq_refl eq_refl) as Hm.
    rewrite sse_creates_append, Hm; [done..|].
    intros id Hid. rewrite Hm. by apply Hfresh.
Qed.

Lemma C8_creates_are_listed_in_delivery_order_witness :
  WebSocketPage.messages (page
    (dispatch WebSocketPage.handleNewMessage [msgB; msgC]
       (run WebSocketPage.loadMessages
          (boot WebSocketPage.initial (answers (snapshot_of [msgA]))))))
  = [msgA] ++ [msgB; msgC]
  ∧ SSEPage.messages (page
      (dispatch SSEPage.handleNewMessage [msgB; msgC]
         (run SSEPage.loadMessages
            (boot SSEPage.initial (answers (snapshot_of [msgA]))))))
    = [msgA] ++ [msgB; msgC].
Proof.
  apply (C8_creates_are_listed_in_delivery_order [msgA] [msgB; msgC]).
  - repeat constructor; by eexists.
  - vm_compute. apply NoDup_cons. split; [|apply NoDup_singleton].
    by intros ?%list_elem_of_singleton.
  - vm_compute. intros id Hid ->%list_elem_of_singleton.
    apply elem_of_cons in Hid as [?|Hid%list_elem_of_singleton]; done.
Defined.

(** ** The gateway leaves the collection alone *)

Lemma ws_sendMessage_frame w :
  WebSocketPage.messages (page (run WebSocketPage.sendMessage w))
  = WebSocketPage.messages (page w)
  ∧ WebSocketPage.messageIds (page (run WebSocketPage.sendMessage w))
    = WebSocketPage.messageIds (page w).
Proof. run_handler. Qed.

Lemma ws_saveEdit_frame id w :
  WebSocketPage.messages (page (run (WebSocketPage.saveEdit id) w))
  = WebSocketPage.messages (page w)
  ∧ WebSocketPage.messageIds (page (run (WebSocketPage.saveEdit id) w))
    = WebSocketPage.messageIds (page w).
Proof. run_handler. Qed.

Lemma sse_sendMessage_frame w :
  SSEPage.messages (page (run SSEPage.sendMessage w))
  = SSEPage.messages (page w).
Proof. run_handler. Qed.

Lemma sse_saveEdit_frame id w :
  SSEPage.messages (page (run (SSEPage.saveEdit id) w))
  = SSEPage.messages (page w).
Proof. run_handler. Qed.

(** C10.  Neither [sendMessage] nor [saveEdit] changes the message
    collection (nor, on the WebSocket page, the id set), whether the
    request succeeds, is refused, or never gets an answer. *)
Theorem C10_gateway_never_touches_collection :
  (∀ w : World WebSocketPage.State,
     WebSocketPage.messages (page (run WebSocketPage.sendMessage w))
     = WebSocketPage.messages (page w)
     ∧ WebSocketPage.messageIds (page (run WebSocketPage.sendMessage w))
       = WebSocketPage.messageIds (page w))
  ∧ (∀ (w : World WebSocketPage.State) id,
       WebSocketPage.messages (page (run (WebSocketPage.saveEdit id) w))
       = WebSocketPage.messages (page w)
       ∧ WebSocketPage.messageIds (page (run (WebSocketPage.saveEdit id) w))
         = WebSocketPage.messageIds (page w))
  ∧ (∀ w : World SSEPage.State,
       SSEPage.messages (page (run SSEPage.sendMessage w))
       = SSEPage.messages (page w))
  ∧ (∀ (w : World SSEPage.State) id,
       SSEPage.messages (page (run (SSEPage.saveEdit id) w))
       = SSEPage.messages (page w)).
Proof.
  split_and!; intros.
  - apply ws_sendMessage_frame.
  - apply ws_saveEdit_frame.
  - apply sse_sendMessage_frame.
  - apply sse_saveEdit_frame.
Qed.

(** ** Failing to load the snapshot *)

(** The snapshot request fails when the promise rejects or when the body
    of the response is not JSON. *)
Lemma ws_load_failure w :
  (backend w (GET "http://localhost:4877/messages") = NetworkError
   ∨ ∃ r, backend w (GET "http://localhost:4877/messages") = Responds r
          ∧ parsed (payload r) = None) →
  page (run WebSocketPage.loadMessages w) = page w
  ∧ console (run WebSocketPage.loadMessages w)
    = console w ++ [console_error "Failed to load messages:"]
  ∧ sent (run WebSocketPage.loadMessages w)
    = sent w ++ [GET "http://localhost:4877/messages"]
  ∧ (WebSocketPage.loadMessages w).1 = Normal ().
Proof.
  unfold WebSocketPage.loadMessages. unfold_host.
  intros [H|(r & H & Hr)]; rewrite H; [done|]. by rewrite Hr.
Qed.

Lemma sse_load_failure w :
  (backend w (GET "http://localhost:4877/messages") = NetworkError
   ∨ ∃ r, backend w (GET "http://localhost:4877/messages") = Responds r
          ∧ parsed (payload r) = None) →
  page (run SSEPage.loadMessages w) = page w
  ∧ console (run SSEPage.loadMessages w)
    = console w ++ [console_error "Failed to load messages:"]
  ∧ sent (run SSEPage.loadMessages w)
    = sent w ++ [GET "http://localhost:4877/messages"]
  ∧ (SSEPage.loadMessages w).1 = Normal ().
Proof.
  unfold SSEPage.loadMessages. unfold_host.
  intros [H|(r & H & Hr)]; rewrite H; [done|]. by rewrite Hr.
Qed.

(** ** The id set of the WebSocket page *)

Lemma truthy_ids_nonempty l v : v ∈ truthy_ids l → v ≠ "".
Proof.
  unfold truthy_ids. intros (m & _ & Hm)%list_elem_of_omap.
  by apply truthy_Some in Hm as [_ ?].
Qed.

Lemma ws_tracked_apply w msg :
  ws_tracked (page w) →
  ws_tracked (page (run (WebSocketPage.handleNewMessage msg) w)).
Proof.
  intros [Hne Hsub]. unfold ws_tracked.
  destruct (truthy (Message._id msg)) as [id|] eqn:Hid.
  - destruct (decide (id ∈ WebSocketPage.messageIds (page w))) as [Hin|Hin].
    + destruct (ws_apply_tracked w msg id Hid Hin) as [-> _]. done.
    + destruct (ws_apply_fresh w msg id Hid Hin) as (-> & -> & _).
      apply truthy_Some in Hid as Hid'. destruct Hid' as [_ Hid'].
      split.
      { intros [?%elem_of_singleton|?]%elem_of_union; done. }
      destruct (findIndex _ _) as [i|] eqn:E.
      * apply findIndex_Some in E as (old & Hi & Hold & _).
        unfold truthy_ids.
        rewrite (omap_insert_same _ _ i old msg) by (done || by rewrite Hold).
        intros v Hv. apply elem_of_union_r. by apply Hsub.
      * unfold truthy_ids. rewrite omap_snoc, Hid. simpl.
        intros v [Hv| ->%list_elem_of_singleton]%elem_of_app.
        -- apply elem_of_union_r. by apply Hsub.
        -- apply elem_of_union_l. by apply elem_of_singleton.
  - destruct (ws_apply_no_id w msg Hid) as (-> & -> & _).
    unfold truthy_ids. rewrite omap_snoc, Hid. simpl.
    by rewrite app_nil_r.
Qed.

Lemma ws_apply_completes w msg :
  (WebSocketPage.handleNewMessage msg w).1 = Normal ().
Proof.
  unfold_ws. unfold_host. simpl. destruct (truthy _); [|done].
  case_decide; [done|]. simpl. by destruct (findIndex _ _).
Qed.

(** A frame that decodes is logged and handed to [handleNewMessage]; one
    that does not is logged as a failure and dropped. *)
Lemma ws_onmessage_decoded ev msg w :
  parsed (data ev) = Some msg →
  run (WebSocketPage.onmessage ev) w
  = run (WebSocketPage.handleNewMessage msg)
      (run (emit (console_log "WebSocket received:")) w).
Proof.
  intros H. unfold WebSocketPage.onmessage.
  unfold run, try_catch, JSON_parse. rewrite H.
  unfold mbind at 1 2, M_bind at 1 2, mret, M_ret, emit.
  cbv beta iota. cbn [fst snd].
  match goal with
  | |- context [WebSocketPage.handleNewMessage msg ?w1] =>
      pose proof (ws_apply_completes w1 msg) as Hc;
      destruct (WebSocketPage.handleNewMessage msg w1) as [c w2]
  end.
  simpl in Hc. by subst c.
Qed.

Lemma ws_onmessage_malformed ev w :
  parsed (data ev) = None →
  page (run (WebSocketPage.onmessage ev) w) = page w
  ∧ console (run (WebSocketPage.onmessage ev) w)
    = console w ++ [console_error "Failed to parse WebSocket message:"]
  ∧ (WebSocketPage.onmessage ev w).1 = Normal ().
Proof.
  intros H. unfold WebSocketPage.onmessage. unfold_host. by rewrite H.
Qed.

Lemma ws_reachable_tracked w : ws_reachable w → ws_tracked (page w).
Proof.
  induction 1 as [net|net w _ IH|w _ IH|ev w _ IH|w _ IH|w _ IH|w _ IH
                  |v w _ IH|v w _ IH|id v w _ IH|w _ IH|id w _ IH].
  - split; [apply not_elem_of_empty|]. by intros id ?%elem_of_nil.
  - done.
  - destruct (backend w (GET "http://localhost:4877/messages")) as [|r] eqn:Hb.
    { destruct (ws_load_failure w) as [-> _]; auto. }
    destruct (parsed (payload r)) as [l|] eqn:Hl.
    + destruct (ws_load_success w r l Hb Hl) as [Hm Hi].
      destruct IH as [Hne Hsub]. unfold ws_tracked. rewrite Hm, Hi. split.
      * intros [Hin%elem_of_list_to_set|?]%elem_of_union; [|done].
        by apply truthy_ids_nonempty in Hin.
      * intros id Hid. apply elem_of_union_l. by apply elem_of_list_to_set.
    + destruct (ws_load_failure w) as [-> _]; eauto.
  - destruct (parsed (data ev)) as [msg|] eqn:Hev.
    + rewrite (ws_onmessage_decoded ev msg w Hev). by apply ws_tracked_apply.
    + by destruct (ws_onmessage_malformed ev w Hev) as [-> _].
  - done.
  - done.
  - done.
  - done.
  - done.
  - done.
  - unfold ws_tracked. by destruct (ws_sendMessage_frame w) as [-> ->].
  - unfold ws_tracked. by destruct (ws_saveEdit_frame id w) as [-> ->].
Qed.

(** C5.  On the WebSocket page, in any state the page can reach, an
    event whose id is in the id set leaves the page state as it is, and
    is logged as a duplicate: the branch that updates an entry in place
    is not taken, whether or not the collection holds an entry with that
    id. *)
Theorem C5_tracked_id_is_skipped :
  ∀ w msg id,
    ws_reachable w →
    Message._id msg = Some id →
    id ∈ WebSocketPage.messageIds (page w) →
    page (run (WebSocketPage.handleNewMessage msg) w) = page w
    ∧ console (run (WebSocketPage.handleNewMessage msg) w)
      = console w ++ [console_log "Duplicate message detected, skipping:"].
Proof.
  intros w msg id Hw Hid Hin. apply ws_apply_tracked with id; [|done].
  apply truthy_of_present; [done|]. intros ->.
  by apply (ws_reachable_tracked w Hw).
Qed.

Lemma C5_tracked_id_is_skipped_witness :
  let w := run WebSocketPage.loadMessages
             (boot WebSocketPage.initial
                (answers (snapshot_of [msgA; msgB; msgC]))) in
  msgB ∈ WebSocketPage.messages (page w)
  ∧ page (run (WebSocketPage.handleNewMessage msgB') w) = page w
  ∧ console (run (WebSocketPage.handleNewMessage msgB') w)
    = console w ++ [console_log "Duplicate message detected, skipping:"].
Proof.
  intros w. split.
  - vm_compute. apply list_elem_of_further, list_elem_of_here.
  - apply (C5_tracked_id_is_skipped w msgB' "2").
    + apply ws_load, ws_mount.
    + reflexivity.
    + vm_compute. reflexivity.
Defined.

(** Hence, in a reachable state, [handleNewMessage] either leaves the
    collection as it is or appends to it; it never rewrites an entry. *)
Lemma ws_update_branch_is_dead w msg :
  ws_reachable w →
  WebSocketPage.messages (page (run (WebSocketPage.handleNewMessage msg) w))
  = WebSocketPage.messages (page w)
  ∨ WebSocketPage.messages (page (run (WebSocketPage.handleNewMessage msg) w))
    = WebSocketPage.messages (page w) ++ [msg].
Proof.
  intros [_ Hsub]%ws_reachable_tracked.
  destruct (truthy (Message._id msg)) as [id|] eqn:Hid.
  - destruct (decide (id ∈ WebSocketPage.messageIds (page w))) as [Hin|Hin].
    + left. by destruct (ws_apply_tracked w msg id Hid Hin) as [-> _].
    + right. destruct (ws_apply_fresh w msg id Hid Hin) as (-> & _).
      destruct (findIndex _ _) as [i|] eqn:E; [|done].
      apply findIndex_Some in E as (old & Hi & Hold & _).
      destruct Hin. apply Hsub, list_elem_of_omap. exists old.
      split; [by eapply list_elem_of_lookup_2|]. by rewrite Hold.
  - right. by destruct (ws_apply_no_id w msg Hid) as (-> & _).
Qed.

(** ** What a handler does to the page depends on the page only *)

Lemma ws_apply_local msg (w1 w2 : World WebSocketPage.State) :
  page w1 = page w2 →
  page (run (WebSocketPage.handleNewMessage msg) w1)
  = page (run (WebSocketPage.handleNewMessage msg) w2).
Proof.
  destruct w1 as [p c1 s1 b1], w2 as [p2 c2 s2 b2]. simpl. intros <-.
  unfold_ws. unfold_host. simpl.
  destruct (truthy _); simpl; [|done]. case_decide; simpl; [done|].
  by destruct (findIndex _ _).
Qed.

Lemma ws_dispatch_apply_local evs : ∀ w1 w2 : World WebSocketPage.State,
  page w1 = page w2 →
  page (dispatch WebSocketPage.handleNewMessage evs w1)
  = page (dispatch WebSocketPage.handleNewMessage evs w2).
Proof.
  induction evs as [|ev evs IH]; intros w1 w2 H; [done|].
  rewrite !dispatch_cons. by apply IH, ws_apply_local.
Qed.

Lemma ws_onmessage_local ev (w1 w2 : World WebSocketPage.State) :
  page w1 = page w2 →
  page (run (WebSocketPage.onmessage ev) w1)
  = page (run (WebSocketPage.onmessage ev) w2).
Proof.
  intros H. destruct (parsed (data ev)) as [msg|] eqn:Hev.
  - rewrite !(ws_onmessage_decoded ev msg) by done. by apply ws_apply_local.
  - destruct (ws_onmessage_malformed ev w1 Hev) as [-> _].
    by destruct (ws_onmessage_malformed ev w2 Hev) as [-> _].
Qed.

Lemma ws_dispatch_local evs : ∀ w1 w2 : World WebSocketPage.State,
  page w1 = page w2 →
  page (dispatch WebSocketPage.onmessage evs w1)
  = page (dispatch WebSocketPage.onmessage evs w2).
Proof.
  induction evs as [|ev evs IH]; intros w1 w2 H; [done|].
  rewrite !dispatch_cons. by apply IH, ws_onmessage_local.
Qed.

Lemma sse_dispatch_apply_local evs : ∀ w1 w2 : World SSEPage.State,
  page w1 = page w2 →
  page (dispatch SSEPage.handleNewMessage evs w1)
  = page (dispatch SSEPage.handleNewMessage evs w2).
Proof.
  induction evs as [|ev evs IH]; intros w1 w2 H; [done|].
  rewrite !dispatch_cons. apply IH. unfold_sse. unfold_host. simpl.
  by rewrite H.
Qed.

(** C9.  When the snapshot request gets no answer, or an answer whose
    body is not JSON, the page mounted with an empty
    collection keeps it; the failure is written to the console and
    [loadMessages] returns normally; one request was sent and no other;
    live events apply as they would on the freshly mounted page. *)
Theorem C9_failed_snapshot_leaves_empty_collection :
  ∀ net, snapshot_fails net →
    (let w := run WebSocketPage.loadMessages
                (boot WebSocketPage.initial net) in
     WebSocketPage.messages (page w) = []
     ∧ console w = [console_error "Failed to load messages:"]
     ∧ completes WebSocketPage.loadMessages (boot WebSocketPage.initial net)
     ∧ sent w = [GET "http://localhost:4877/messages"]
     ∧ ∀ events,
         page (dispatch WebSocketPage.handleNewMessage events w)
         = page (dispatch WebSocketPage.handleNewMessage events
                   (boot WebSocketPage.initial net)))
    ∧ (let w := run SSEPage.loadMessages (boot SSEPage.initial net) in
       SSEPage.messages (page w) = []
       ∧ console w = [console_error "Failed to load messages:"]
       ∧ completes SSEPage.loadMessages (boot SSEPage.initial net)
       ∧ sent w = [GET "http://localhost:4877/messages"]
       ∧ ∀ events,
           page (dispatch SSEPage.handleNewMessage events w)
           = page (dispatch SSEPage.handleNewMessage events
                     (boot SSEPage.initial net))).
Proof.
  intros net Hnet. split.
  - destruct (ws_load_failure (boot WebSocketPage.initial net) Hnet)
      as (Hp & Hc & Hs & Hn).
    cbv zeta. rewrite Hp, Hc, Hs. split_and!; try done.
    + by exists ().
    + intros events. by apply ws_dispatch_apply_local.
  - destruct (sse_load_failure (boot SSEPage.initial net) Hnet)
      as (Hp & Hc & Hs & Hn).
    cbv zeta. rewrite Hp, Hc, Hs. split_and!; try done.
    + by exists ().
    + intros events. by apply sse_dispatch_apply_local.
Qed.

Lemma C9_failed_snapshot_leaves_empty_collection_witness :
  snapshot_fails offline
  ∧ WebSocketPage.messages
      (page (run WebSocketPage.loadMessages
               (boot WebSocketPage.initial offline))) = []
  ∧ SSEPage.messages
      (page (run SSEPage.loadMessages (boot SSEPage.initial offline))) = [].
Proof.
  assert (H : snapshot_fails offline) by (left; reflexivity).
  split; [exact H|]. split.
  - exact (proj1 (proj1 (C9_failed_snapshot_leaves_empty_collection
                           offline H))).
  - exact (proj1 (proj2 (C9_failed_snapshot_leaves_empty_collection
                           offline H))).
Defined.

(** C9 does not extend to a response with a failure status: the status
    is not looked at, and a body that decodes is installed as the
    collection without a word on the console. *)
Lemma C9_counterexample_refused_snapshot :
  ok (refused_with [msgA]) = false
  ∧ WebSocketPage.messages
      (page (run WebSocketPage.loadMessages
               (boot WebSocketPage.initial (answers (refused_with [msgA])))))
    ≠ []
  ∧ console (run WebSocketPage.loadMessages
               (boot WebSocketPage.initial (answers (refused_with [msgA]))))
    = []
  ∧ SSEPage.messages
      (page (run SSEPage.loadMessages
               (boot SSEPage.initial (answers (refused_with [msgA])))))
    ≠ []
  ∧ console (run SSEPage.loadMessages
               (boot SSEPage.initial (answers (refused_with [msgA]))))
    = [].
Proof. by vm_compute. Qed.

(** ** Frames that do not decode *)

(** On the SSE page [JSON.parse] is not guarded: the listener ends with
    the exception, having changed nothing and logged nothing. *)
Lemma sse_onmessage_malformed ev w :
  parsed (data ev) = None →
  SSEPage.onmessage ev w = (Throw (SyntaxError "Unexpected token"), w).
Proof. intros H. unfold SSEPage.onmessage. unfold_host. by rewrite H. Qed.

(** Either way the collection ends up as if the frame had not been sent,
    as long as the host keeps dispatching after a listener has thrown. *)
Lemma ws_malformed_frame_dropped pre bad post w :
  parsed (data bad) = None →
  page (dispatch WebSocketPage.onmessage (pre ++ bad :: post) w)
  = page (dispatch WebSocketPage.onmessage (pre ++ post) w).
Proof.
  intros H. rewrite !dispatch_app, dispatch_cons.
  apply ws_dispatch_local. by apply ws_onmessage_malformed.
Qed.

Lemma sse_malformed_frame_dropped pre bad post w :
  parsed (data bad) = None →
  dispatch SSEPage.onmessage (pre ++ bad :: post) w
  = dispatch SSEPage.onmessage (pre ++ post) w.
Proof.
  intros H. rewrite !dispatch_app, dispatch_cons.
  unfold run. by rewrite sse_onmessage_malformed.
Qed.

(** C6.  A frame that is not JSON should be dropped with a logged
    failure, without the listener failing, on both pages.  The WebSocket
    listener catches the exception and logs it.  The SSE listener lets
    [JSON.parse] throw: it completes with the exception and writes
    nothing to the console. *)
Theorem C6_sse_listener_throws_on_malformed_frame :
  (WebSocketPage.onmessage malformed (boot WebSocketPage.initial offline)).1
  = Normal ()
  ∧ console (run (WebSocketPage.onmessage malformed)
               (boot WebSocketPage.initial offline))
    = [console_error "Failed to parse WebSocket message:"]
  ∧ (SSEPage.onmessage malformed (boot SSEPage.initial offline)).1
    = Throw (SyntaxError "Unexpected token")
  ∧ console (run (SSEPage.onmessage malformed)
               (boot SSEPage.initial offline))
    = [].
Proof. by vm_compute. Qed.

(** ** Sending a message *)

(** The WebSocket page reports a request that gets no answer or a
    failure status, and keeps the text. *)
Lemma ws_sendMessage_failure w :
  let req := {| method := "POST"; url := "http://localhost:4877/publish";
                headers := json_headers;
                body := Some [("text", trim (WebSocketPage.text (page w)));
                              ("author", trim (WebSocketPage.author (page w)))]
             |} in
  trim (WebSocketPage.text (page w)) ≠ "" →
  trim (WebSocketPage.author (page w)) ≠ "" →
  (backend w req = NetworkError
   ∨ ∃ r, backend w req = Responds r ∧ ok r = false) →
  page (run WebSocketPage.sendMessage w) = page w
  ∧ console (run WebSocketPage.sendMessage w)
    = console w ++ [console_error "Failed to send message:"]
  ∧ (WebSocketPage.sendMessage w).1 = Normal ().
Proof.
  intros req Ht Ha Hnet. unfold WebSocketPage.sendMessage. unfold_host.
  simpl. rewrite !bool_decide_eq_false_2 by done. simpl.
  fold req. destruct Hnet as [->|(r & -> & Hr)]; [done|]. by rewrite Hr.
Qed.

(** It clears the text only after a response with a success status. *)
Lemma ws_sendMessage_clears_on_success_only w :
  WebSocketPage.text (page (run WebSocketPage.sendMessage w))
  ≠ WebSocketPage.text (page w) →
  ∃ req r, backend w req = Responds r ∧ ok r = true.
Proof.
  unfold WebSocketPage.sendMessage. unfold_host. simpl.
  destruct (_ || _); simpl; [done|].
  match goal with |- context [backend w ?req] =>
    destruct (backend w req) as [|r] eqn:Hb end; simpl; [done|].
  destruct (ok r) eqn:Hr; simpl; [eauto|done].
Qed.

(** The SSE page clears the text after any response, and reports none;
    when there is no answer it ends with the exception of [fetch]. *)
Lemma sse_sendMessage_answered w r :
  let req := {| method := "POST"; url := "http://localhost:4877/publish";
                headers := json_headers;
                body := Some [("text", SSEPage.text (page w));
                              ("author", SSEPage.author (page w))] |} in
  trim (SSEPage.text (page w)) ≠ "" →
  trim (SSEPage.author (page w)) ≠ "" →
  backend w req = Responds r →
  SSEPage.text (page (run SSEPage.sendMessage w)) = ""
  ∧ console (run SSEPage.sendMessage w) = console w.
Proof.
  intros req Ht Ha Hnet. unfold SSEPage.sendMessage. unfold_host.
  simpl. rewrite !bool_decide_eq_false_2 by done. simpl.
  fold req. by rewrite Hnet.
Qed.

Lemma sse_sendMessage_unanswered w :
  let req := {| method := "POST"; url := "http://localhost:4877/publish";
                headers := json_headers;
                body := Some [("text", SSEPage.text (page w));
                              ("author", SSEPage.author (page w))] |} in
  trim (SSEPage.text (page w)) ≠ "" →
  trim (SSEPage.author (page w)) ≠ "" →
  backend w req = NetworkError →
  page (run SSEPage.sendMessage w) = page w
  ∧ console (run SSEPage.sendMessage w) = console w
  ∧ (SSEPage.sendMessage w).1 = Throw (TypeError "Failed to fetch").
Proof.
  intros req Ht Ha Hnet. unfold SSEPage.sendMessage. unfold_host.
  simpl. rewrite !bool_decide_eq_false_2 by done. simpl.
  fold req. by rewrite Hnet.
Qed.

(** C7.  A request that fails should be reported and leave the text in
    place, on both pages.  With ["hello"] typed by ["Al"] and a backend
    that answers with a failure status, the WebSocket page keeps the text
    and logs the failure; the SSE page clears the text and logs
    nothing. *)
Theorem C7_sse_clears_text_after_refused_request :
  let ws := run (WebSocketPage.setText "hello";; WebSocketPage.setAuthor "Al")
              (boot WebSocketPage.initial (answers internal_error)) in
  let sse := run (SSEPage.setText "hello";; SSEPage.setAuthor "Al")
               (boot SSEPage.initial (answers internal_error)) in
  WebSocketPage.text (page (run WebSocketPage.sendMessage ws)) = "hello"
  ∧ console (run WebSocketPage.sendMessage ws)
    = [console_error "Failed to send message:"]
  ∧ SSEPage.text (page sse) = "hello"
  ∧ SSEPage.text (page (run SSEPage.sendMessage sse)) = ""
  ∧ console (run SSEPage.sendMessage sse) = [].
Proof. by vm_compute. Qed.

(** * Further properties of the pages *)

(** ** Trimming *)













(** ** Sending: the guard and the request *)

Lemma snoc_neq {A} (l : list A) x : l ++ [x] ≠ l.
Proof.
  intros Heq. apply (f_equal length) in Heq.
  rewrite length_app in Heq. simpl in Heq. lia.
Qed.

Lemma ws_sendMessage_blank w :
  bool_decide (trim (WebSocketPage.text (page w)) = "")
  || bool_decide (trim (WebSocketPage.author (page w)) = "") = true →
  WebSocketPage.sendMessage w = (Normal (), w).
Proof.
  intros Hb. unfold WebSocketPage.sendMessage. unfold_host. simpl.
  by rewrite Hb.
Qed.

Lemma ws_sendMessage_sends w :
  bool_decide (trim (WebSocketPage.text (page w)) = "")
  || bool_decide (trim (WebSocketPage.author (page w)) = "") = false →
  sent (run WebSocketPage.sendMessage w)
  = sent w ++
    [ {| method := "POST"; url := "http://localhost:4877/publish";
         headers := json_headers;
         body := Some [("text", trim (WebSocketPage.text (page w)));
                       ("author", trim (WebSocketPage.author (page w)))] |} ].
Proof.
  intros Hb. unfold WebSocketPage.sendMessage. unfold_host. simpl.
  rewrite Hb.
  match goal with |- context [backend w ?req] =>
    destruct (backend w req) as [|r] end; simpl; [done|].
  by destruct (ok r).
Qed.

Lemma sse_sendMessage_blank w :
  bool_decide (trim (SSEPage.text (page w)) = "")
  || bool_decide (trim (SSEPage.author (page w)) = "") = true →
  SSEPage.sendMessage w = (Normal (), w).
Proof.
  intros Hb. unfold SSEPage.sendMessage. unfold_host. simpl. by rewrite Hb.
Qed.

Lemma sse_sendMessage_sends w :
  bool_decide (trim (SSEPage.text (page w)) = "")
  || bool_decide (trim (SSEPage.author (page w)) = "") = false →
  sent (run SSEPage.sendMessage w)
  = sent w ++
    [ {| method := "POST"; url := "http://localhost:4877/publish";
         headers := json_headers;
         body := Some [("text", SSEPage.text (page w));
                       ("author", SSEPage.author (page w))] |} ].
Proof.
  intros Hb. unfold SSEPage.sendMessage. unfold_host. simpl. rewrite Hb.
  match goal with |- context [backend w ?req] =>
    by destruct (backend w req) as [|r] end.
Qed.




(** ** Saving an edit *)

Lemma ws_saveEdit_cases id w :
  let req := {| method := "PUT";
                url := "http://localhost:4877/edit/" +:+ id;
                headers := json_headers;
                body := Some [("text", WebSocketPage.editText (page w))] |} in
  sent (run (WebSocketPage.saveEdit id) w) = sent w ++ [req]
  ∧ console (run (WebSocketPage.saveEdit id) w) = console w
  ∧ match backend w req with
    | NetworkError =>
        (WebSocketPage.saveEdit id w).1 = Throw (TypeError "Failed to fetch")
        ∧ page (run (WebSocketPage.saveEdit id) w) = page w
    | Responds _ =>
        (WebSocketPage.saveEdit id w).1 = Normal ()
        ∧ WebSocketPage.editingId (page (run (WebSocketPage.saveEdit id) w))
          = None
        ∧ WebSocketPage.editText (page (run (WebSocketPage.saveEdit id) w))
          = ""
        ∧ WebSocketPage.text (page (run (WebSocketPage.saveEdit id) w))
          = WebSocketPage.text (page w)
    end.
Proof.
  intros req. unfold WebSocketPage.saveEdit. unfold_ws. unfold_host. simpl.
  fold req. by destruct (backend w req).
Qed.

Lemma sse_saveEdit_cases id w :
  let req := {| method := "PUT";
                url := "http://localhost:4877/edit/" +:+ id;
                headers := json_headers;
                body := Some [("text", SSEPage.editText (page w))] |} in
  sent (run (SSEPage.saveEdit id) w) = sent w ++ [req]
  ∧ console (run (SSEPage.saveEdit id) w) = console w
  ∧ match backend w req with
    | NetworkError =>
        (SSEPage.saveEdit id w).1 = Throw (TypeError "Failed to fetch")
        ∧ page (run (SSEPage.saveEdit id) w) = page w
    | Responds _ =>
        (SSEPage.saveEdit id w).1 = Normal ()
        ∧ SSEPage.editingId (page (run (SSEPage.saveEdit id) w)) = None
        ∧ SSEPage.editText (page (run (SSEPage.saveEdit id) w)) = ""
        ∧ SSEPage.text (page (run (SSEPage.saveEdit id) w))
          = SSEPage.text (page w)
    end.
Proof.
  intros req. unfold SSEPage.saveEdit. unfold_sse. unfold_host. simpl.
  fold req. by destruct (backend w req).
Qed.

(** X3.  [saveEdit id] sends one [PUT /edit/id] carrying the edit text
    and never writes to the console.  When the backend answers, with any
    status, the edit box is closed and its text cleared; when there is no
    answer the call ends with the exception of [fetch] and the page,
    edit box included, stays as it was. *)
Theorem X3_saveEdit_closes_editor_on_any_answer :
  (∀ (w : World WebSocketPage.State) id,
     let req := {| method := "PUT";
                   url := "http://localhost:4877/edit/" +:+ id;
                   headers := json_headers;
                   body := Some [("text", WebSocketPage.editText (page w))]
                |} in
     sent (run (WebSocketPage.saveEdit id) w) = sent w ++ [req]
     ∧ console (run (WebSocketPage.saveEdit id) w) = console w
     ∧ match backend w req with
       | NetworkError =>
           (WebSocketPage.saveEdit id w).1
           = Throw (TypeError "Failed to fetch")
           ∧ page (run (WebSocketPage.saveEdit id) w) = page w
       | Responds _ =>
           (WebSocketPage.saveEdit id w).1 = Normal ()
           ∧ WebSocketPage.editingId
               (page (run (WebSocketPage.saveEdit id) w)) = None
           ∧ WebSocketPage.editText
               (page (run (WebSocketPage.saveEdit id) w)) = ""
           ∧ WebSocketPage.text (page (run (WebSocketPage.saveEdit id) w))
             = WebSocketPage.text (page w)
       end)
  ∧ (∀ (w : World SSEPage.State) id,
       let req := {| method := "PUT";
                     url := "http://localhost:4877/edit/" +:+ id;
                     headers := json_headers;
                     body := Some [("text", SSEPage.editText (page w))] |} in
       sent (run (SSEPage.saveEdit id) w) = sent w ++ [req]
       ∧ console (run (SSEPage.saveEdit id) w) = console w
       ∧ match backend w req with
         | NetworkError =>
             (SSEPage.saveEdit id w).1 = Throw (TypeError "Failed to fetch")
             ∧ page (run (SSEPage.saveEdit id) w) = page w
         | Responds _ =>
             (SSEPage.saveEdit id w).1 = Normal ()
             ∧ SSEPage.editingId (page (run (SSEPage.saveEdit id) w)) = None
             ∧ SSEPage.editText (page (run (SSEPage.saveEdit id) w)) = ""
             ∧ SSEPage.text (page (run (SSEPage.saveEdit id) w))
               = SSEPage.text (page w)
         end).
Proof.
  split; intros w id.
  - apply ws_saveEdit_cases.
  - apply sse_saveEdit_cases.
Qed.

(** ** The connection flag *)

Lemma connected_after_cons b s signals :
  connected_after b (s :: signals)
  = connected_after (match s with Opened => true | _ => false end) signals.
Proof.
  unfold connected_after. destruct signals as [|s' signals]; [by destruct s|].
  rewrite last_cons_cons.
  destruct (last (s' :: signals)) as [x|] eqn:E; [done|].
  by apply last_None in E.
Qed.

Lemma ws_signal_flag s w :
  WebSocketPage.isConnected (page (run (ws_signal s) w))
  = match s with Opened => true | _ => false end.
Proof. by destruct s. Qed.

Lemma sse_signal_flag s w :
  SSEPage.isConnected (page (run (sse_signal s) w))
  = match s with Opened => true | _ => false end.
Proof. by destruct s. Qed.

(** X4.  After any sequence of transport signals the connection flag
    tells the last one: it is set exactly when the last signal was an
    open, and it is as before when there was no signal. *)
Theorem X4_connection_flag_follows_last_signal :
  (∀ signals (w : World WebSocketPage.State),
     WebSocketPage.isConnected (page (dispatch ws_signal signals w))
     = connected_after (WebSocketPage.isConnected (page w)) signals)
  ∧ (∀ signals (w : World SSEPage.State),
       SSEPage.isConnected (page (dispatch sse_signal signals w))
       = connected_after (SSEPage.isConnected (page w)) signals).
Proof.
  split; induction signals as [|s signals IH]; intros w; try done.
  - by rewrite dispatch_cons, IH, connected_after_cons, ws_signal_flag.
  - by rewrite dispatch_cons, IH, connected_after_cons, sse_signal_flag.
Qed.

Lemma ws_signal_frame s w :
  let w' := run (ws_signal s) w in
  WebSocketPage.messages (page w') = WebSocketPage.messages (page w)
  ∧ WebSocketPage.messageIds (page w') = WebSocketPage.messageIds (page w)
  ∧ WebSocketPage.text (page w') = WebSocketPage.text (page w)
  ∧ WebSocketPage.author (page w') = WebSocketPage.author (page w)
  ∧ WebSocketPage.editingId (page w') = WebSocketPage.editingId (page w)
  ∧ WebSocketPage.editText (page w') = WebSocketPage.editText (page w)
  ∧ sent w' = sent w.
Proof. by destruct s. Qed.

Lemma sse_signal_frame s w :
  let w' := run (sse_signal s) w in
  SSEPage.messages (page w') = SSEPage.messages (page w)
  ∧ SSEPage.text (page w') = SSEPage.text (page w)
  ∧ SSEPage.author (page w') = SSEPage.author (page w)
  ∧ SSEPage.editingId (page w') = SSEPage.editingId (page w)
  ∧ SSEPage.editText (page w') = SSEPage.editText (page w)
  ∧ sent w' = sent w.
Proof. by destruct s. Qed.

(** X5.  Transport signals change the connection flag and the console
    and nothing else: after any sequence of them the collection, the id
    set, the typed text and author and the edit box are as before, and
    no request was sent. *)
Theorem X5_signals_leave_the_rest_alone :
  (∀ signals (w : World WebSocketPage.State),
     let w' := dispatch ws_signal signals w in
     WebSocketPage.messages (page w') = WebSocketPage.messages (page w)
     ∧ WebSocketPage.messageIds (page w') = WebSocketPage.messageIds (page w)
     ∧ WebSocketPage.text (page w') = WebSocketPage.text (page w)
     ∧ WebSocketPage.author (page w') = WebSocketPage.author (page w)
     ∧ WebSocketPage.editingId (page w') = WebSocketPage.editingId (page w)
     ∧ WebSocketPage.editText (page w') = WebSocketPage.editText (page w)
     ∧ sent w' = sent w)
  ∧ (∀ signals (w : World SSEPage.State),
       let w' := dispatch sse_signal signals w in
       SSEPage.messages (page w') = SSEPage.messages (page w)
       ∧ SSEPage.text (page w') = SSEPage.text (page w)
       ∧ SSEPage.author (page w') = SSEPage.author (page w)
       ∧ SSEPage.editingId (page w') = SSEPage.editingId (page w)
       ∧ SSEPage.editText (page w') = SSEPage.editText (page w)
       ∧ sent w' = sent w).
Proof.
  split; induction signals as [|s signals IH]; intros w; try done.
  - cbv zeta. rewrite dispatch_cons.
    destruct (IH (run (ws_signal s) w)) as (-> & -> & -> & -> & -> & -> & ->).
    apply ws_signal_frame.
  - cbv zeta. rewrite dispatch_cons.
    destruct (IH (run (sse_signal s) w)) as (-> & -> & -> & -> & -> & ->).
    apply sse_signal_frame.
Qed.

(** ** Who changes the connection flag *)

Lemma ws_apply_flag w msg :
  WebSocketPage.isConnected (page (run (WebSocketPage.handleNewMessage msg) w))
  = WebSocketPage.isConnected (page w).
Proof.
  unfold_ws. unfold_host. simpl.
  destruct (truthy _); simpl; [|done]. case_decide; simpl; [done|].
  by destruct (findIndex _ _).
Qed.

Lemma ws_onmessage_flag ev w :
  WebSocketPage.isConnected (page (run (WebSocketPage.onmessage ev) w))
  = WebSocketPage.isConnected (page w).
Proof.
  destruct (parsed (data ev)) as [msg|] eqn:Hev.
  - by rewrite (ws_onmessage_decoded ev msg w Hev), ws_apply_flag.
  - by destruct (ws_onmessage_malformed ev w Hev) as [-> _].
Qed.

Lemma ws_forEach_track_flag (l : list Message.t) :
  ∀ w : World WebSocketPage.State,
  WebSocketPage.isConnected (page (run (forEach l (λ msg : Message.t,
    match truthy (Message._id msg) with
    | Some id => WebSocketPage.messageIds_add id
    | None => mret ()
    end)) w))
  = WebSocketPage.isConnected (page w).
Proof.
  induction l as [|m l IH]; intros w; [done|].
  unfold run in *. simpl. unfold mbind, M_bind.
  destruct (truthy (Message._id m)) as [id|]; simpl; by rewrite IH.
Qed.

Lemma ws_load_flag w :
  WebSocketPage.isConnected (page (run WebSocketPage.loadMessages w))
  = WebSocketPage.isConnected (page w).
Proof.
  destruct (backend w (GET "http://localhost:4877/messages")) as [|r] eqn:Hb.
  { destruct (ws_load_failure w) as [-> _]; auto. }
  destruct (parsed (payload r)) as [l|] eqn:Hl.
  2: { destruct (ws_load_failure w) as [-> _]; eauto. }
  unfold WebSocketPage.loadMessages.
  unfold run, try_catch, mbind, M_bind, fetch, json. rewrite Hb, Hl.
  unfold mret at 1, M_ret at 1. cbv beta iota.
  unfold WebSocketPage.setMessages, modify. cbv beta iota.
  match goal with
  | |- context [forEach l ?t ?w1] =>
      pose proof (ws_forEach_track_flag l w1) as Hf;
      destruct (ws_forEach_track l w1) as (H1 & _);
      unfold run in Hf; destruct (forEach l t w1) as [c w2]
  end.
  simpl in H1. subst c. by rewrite Hf.
Qed.

Lemma sse_onmessage_decoded ev msg w :
  parsed (data ev) = Some msg →
  SSEPage.onmessage ev w = SSEPage.handleNewMessage msg w.
Proof. intros H. unfold SSEPage.onmessage. unfold_host. by rewrite H. Qed.

(** X6.  Nothing but a transport signal changes the connection flag: a
    frame, decodable or not, a snapshot load, successful or not, a send
    and a saved edit all leave it as it is, on both pages. *)
Theorem X6_only_signals_change_the_connection_flag :
  (∀ (w : World WebSocketPage.State) ev id,
     WebSocketPage.isConnected (page (run (WebSocketPage.onmessage ev) w))
     = WebSocketPage.isConnected (page w)
     ∧ WebSocketPage.isConnected (page (run WebSocketPage.loadMessages w))
       = WebSocketPage.isConnected (page w)
     ∧ WebSocketPage.isConnected (page (run WebSocketPage.sendMessage w))
       = WebSocketPage.isConnected (page w)
     ∧ WebSocketPage.isConnected (page (run (WebSocketPage.saveEdit id) w))
       = WebSocketPage.isConnected (page w))
  ∧ (∀ (w : World SSEPage.State) ev id,
       SSEPage.isConnected (page (run (SSEPage.onmessage ev) w))
       = SSEPage.isConnected (page w)
       ∧ SSEPage.isConnected (page (run SSEPage.loadMessages w))
         = SSEPage.isConnected (page w)
       ∧ SSEPage.isConnected (page (run SSEPage.sendMessage w))
         = SSEPage.isConnected (page w)
       ∧ SSEPage.isConnected (page (run (SSEPage.saveEdit id) w))
         = SSEPage.isConnected (page w)).
Proof.
  split; intros w ev id; split_and!.
  - apply ws_onmessage_flag.
  - apply ws_load_flag.
  - run_handler.
  - run_handler.
  - unfold run. destruct (parsed (data ev)) as [msg|] eqn:Hev.
    + by rewrite (sse_onmessage_decoded ev msg w Hev).
    + by rewrite (sse_onmessage_malformed ev w Hev).
  - unfold SSEPage.loadMessages. unfold_host. simpl.
    destruct (backend w _) as [|r]; simpl; [done|].
    by destruct (parsed (payload r)).
  - run_handler.
  - run_handler.
Qed.

(** ** Listeners and [handleNewMessage] *)

(** X7.  Feeding frames to the listener comes to applying the messages
    of the frames that decode, in order: on the WebSocket page the page
    state is the same (the console differs), on the SSE page the whole
    world is. *)
Theorem X7_listener_applies_the_decodable_frames :
  (∀ events (w : World WebSocketPage.State),
     page (dispatch WebSocketPage.onmessage events w)
     = page (dispatch WebSocketPage.handleNewMessage (decoded events) w))
  ∧ (∀ events (w : World SSEPage.State),
       dispatch SSEPage.onmessage events w
       = dispatch SSEPage.handleNewMessage (decoded events) w).
Proof.
  split; induction events as [|ev events IH]; intros w; try done.
  - rewrite dispatch_cons, IH. unfold decoded. simpl.
    destruct (parsed (data ev)) as [msg|] eqn:Hev.
    + rewrite dispatch_cons, (ws_onmessage_decoded ev msg w Hev).
      by apply ws_dispatch_apply_local, ws_apply_local.
    + apply ws_dispatch_apply_local.
      by destruct (ws_onmessage_malformed ev w Hev) as [-> _].
  - rewrite dispatch_cons, IH. unfold decoded. simpl.
    destruct (parsed (data ev)) as [msg|] eqn:Hev.
    + rewrite dispatch_cons. unfold run.
      by rewrite (sse_onmessage_decoded ev msg w Hev).
    + unfold run. by rewrite (sse_onmessage_malformed ev w Hev).
Qed.

(** ** Redelivery *)

Lemma ws_dispatch_tracked events : ∀ w : World WebSocketPage.State,
  (∀ e, e ∈ events →
        ∃ id, truthy (Message._id e) = Some id
              ∧ id ∈ WebSocketPage.messageIds (page w)) →
  page (dispatch WebSocketPage.handleNewMessage events w) = page w.
Proof.
  induction events as [|e events IH]; intros w Hall; [done|].
  destruct (Hall e) as (id & Hid & Hin); [left|].
  destruct (ws_apply_tracked w e id Hid Hin) as [Hp _].
  rewrite dispatch_cons, IH; [done|].
  intros e' He'. rewrite Hp. apply Hall. by right.
Qed.

(** X8.  The ids that [loadMessages] stores do what the source says they
    are for: once the snapshot is loaded, events that carry a non-empty
    id of a snapshot entry, in any number and order, leave the page as
    the snapshot left it. *)
Theorem X8_websocket_ignores_redelivered_snapshot_ids :
  ∀ (w : World WebSocketPage.State) r snapshot events,
    backend w (GET "http://localhost:4877/messages") = Responds r →
    parsed (payload r) = Some snapshot →
    (∀ e, e ∈ events →
          ∃ id, truthy (Message._id e) = Some id
                ∧ id ∈ truthy_ids snapshot) →
    page (dispatch WebSocketPage.handleNewMessage events
            (run WebSocketPage.loadMessages w))
    = page (run WebSocketPage.loadMessages w)
    ∧ WebSocketPage.messages (page (run WebSocketPage.loadMessages w))
      = snapshot.
Proof.
  intros w r snapshot events Hb Hl Hall.
  destruct (ws_load_success w r snapshot Hb Hl) as [Hm Hi].
  split; [|done]. apply ws_dispatch_tracked.
  intros e He. destruct (Hall e He) as (id & Hid & Hin).
  exists id. split; [done|]. rewrite Hi.
  apply elem_of_union_l. by apply elem_of_list_to_set.
Qed.

Lemma X8_websocket_ignores_redelivered_snapshot_ids_witness :
  let w := boot WebSocketPage.initial
             (answers (snapshot_of [msgA; msgB; msgC])) in
  page (dispatch WebSocketPage.handleNewMessage [msgC; msgB'; msgA; msgC]
          (run WebSocketPage.loadMessages w))
  = page (run WebSocketPage.loadMessages w)
  ∧ WebSocketPage.messages (page (run WebSocketPage.loadMessages w))
    = [msgA; msgB; msgC].
Proof.
  intros w.
  apply (X8_websocket_ignores_redelivered_snapshot_ids w
           (snapshot_of [msgA; msgB; msgC])).
  - reflexivity.
  - reflexivity.
  - intros e He. repeat (apply elem_of_cons in He as [->|He]).
    + exists "3". split; [reflexivity|]. vm_compute. set_solver.
    + exists "2". split; [reflexivity|]. vm_compute. set_solver.
    + exists "1". split; [reflexivity|]. vm_compute. set_solver.
    + exists "3". split; [reflexivity|]. vm_compute. set_solver.
    + by apply elem_of_nil in He.
Defined.

(** X9.  On the SSE page, in a collection where no id occurs twice, an
    event that is equal to the entry it would replace changes nothing:
    redelivery of a message that is there is absorbed. *)
Theorem X9_sse_absorbs_redelivery :
  ∀ (w : World SSEPage.State) m,
    NoDup (present_ids (SSEPage.messages (page w))) →
    m ∈ SSEPage.messages (page w) →
    is_Some (Message._id m) →
    SSEPage.messages (page (run (SSEPage.handleNewMessage m) w))
    = SSEPage.messages (page w).
Proof.
  intros w m Hnd Hin [v Hv].
  apply list_elem_of_split in Hin as (l1 & l2 & Hl).
  rewrite (sse_update_in_place w m l1 m l2); [done..|].
  rewrite Hl in Hnd. unfold present_ids in Hnd.
  rewrite omap_app in Hnd. simpl in Hnd. rewrite Hv in Hnd.
  apply NoDup_app in Hnd as (_ & Hdisj & _).
  apply Forall_forall. intros m' Hm' Heq.
  apply (Hdisj v); [|left].
  apply list_elem_of_omap. exists m'. split; [done|congruence].
Qed.

Lemma X9_sse_absorbs_redelivery_witness :
  let w := run SSEPage.loadMessages
             (boot SSEPage.initial (answers (snapshot_of [msgA; msgB]))) in
  SSEPage.messages (page (run (SSEPage.handleNewMessage msgB) w))
  = SSEPage.messages (page w).
Proof.
  intros w. apply (X9_sse_absorbs_redelivery w msgB).
  - vm_compute. apply NoDup_cons. split; [|apply NoDup_singleton].
    by intros ?%list_elem_of_singleton.
  - vm_compute. apply list_elem_of_further, list_elem_of_here.
  - by eexists.
Defined.

(** ** A live message that arrives before the snapshot *)

Lemma ws_apply_tracks w msg id :
  truthy (Message._id msg) = Some id →
  id ∈ WebSocketPage.messageIds
         (page (run (WebSocketPage.handleNewMessage msg) w)).
Proof.
  intros Hid.
  destruct (decide (id ∈ WebSocketPage.messageIds (page w))) as [Hin|Hin].
  - by destruct (ws_apply_tracked w msg id Hid Hin) as [-> _].
  - destruct (ws_apply_fresh w msg id Hid Hin) as (_ & -> & _).
    apply elem_of_union_l. by apply elem_of_singleton.
Qed.

(** X10.  [loadMessages] installs the snapshot over whatever the
    collection holds.  A live message that arrived while the snapshot
    was under way, and is not part of it, is therefore gone once the
    snapshot is there.  On the WebSocket page its id stays in the id set,
    so that even a second delivery is skipped; on the SSE page a second
    delivery appends it again. *)
Theorem X10_snapshot_overwrites_early_live_message :
  (∀ (w : World WebSocketPage.State) r snapshot e id,
     truthy (Message._id e) = Some id →
     backend w (GET "http://localhost:4877/messages") = Responds r →
     parsed (payload r) = Some snapshot →
     WebSocketPage.messages
       (page (run WebSocketPage.loadMessages
                (run (WebSocketPage.handleNewMessage e) w)))
     = snapshot
     ∧ WebSocketPage.messages
         (page (run (WebSocketPage.handleNewMessage e)
                  (run WebSocketPage.loadMessages
                     (run (WebSocketPage.handleNewMessage e) w))))
       = snapshot)
  ∧ (∀ (w : World SSEPage.State) r snapshot e id,
       Message._id e = Some id →
       id ∉ present_ids snapshot →
       backend w (GET "http://localhost:4877/messages") = Responds r →
       parsed (payload r) = Some snapshot →
       SSEPage.messages
         (page (run SSEPage.loadMessages
                  (run (SSEPage.handleNewMessage e) w)))
       = snapshot
       ∧ SSEPage.messages
           (page (run (SSEPage.handleNewMessage e)
                    (run SSEPage.loadMessages
                       (run (SSEPage.handleNewMessage e) w))))
         = snapshot ++ [e]).
Proof.
  split.
  - intros w r snapshot e id Hid Hb Hl.
    set (w1 := run (WebSocketPage.handleNewMessage e) w).
    assert (backend w1 (GET "http://localhost:4877/messages") = Responds r)
      as Hb1 by (unfold w1; by rewrite ws_apply_backend).
    destruct (ws_load_success w1 r snapshot Hb1 Hl) as [Hm Hi].
    split; [done|].
    destruct (ws_apply_tracked (run WebSocketPage.loadMessages w1) e id)
      as [-> _]; [done| |done].
    rewrite Hi. apply elem_of_union_r. by apply ws_apply_tracks.
  - intros w r snapshot e id Hid Hnot Hb Hl.
    set (w1 := run (SSEPage.handleNewMessage e) w).
    assert (backend w1 (GET "http://localhost:4877/messages") = Responds r)
      as Hb1 by done.
    pose proof (sse_load_success w1 r snapshot Hb1 Hl) as Hm.
    split; [done|].
    by rewrite sse_apply, Hm, (not_present_not_found _ e id).
Qed.

Lemma X10_snapshot_overwrites_early_live_message_witness :
  WebSocketPage.messages
    (page (run (WebSocketPage.handleNewMessage msgC)
             (run WebSocketPage.loadMessages
                (run (WebSocketPage.handleNewMessage msgC)
                   (boot WebSocketPage.initial
                      (answers (snapshot_of [msgA; msgB])))))))
  = [msgA; msgB]
  ∧ SSEPage.messages
      (page (run (SSEPage.handleNewMessage msgC)
               (run SSEPage.loadMessages
                  (run (SSEPage.handleNewMessage msgC)
                     (boot SSEPage.initial
                        (answers (snapshot_of [msgA; msgB])))))))
    = [msgA; msgB] ++ [msgC].
Proof.
  split.
  - apply (proj1 X10_snapshot_overwrites_early_live_message
             (boot WebSocketPage.initial (answers (snapshot_of [msgA; msgB])))
             (snapshot_of [msgA; msgB]) [msgA; msgB] msgC "3");
      reflexivity.
  - apply (proj2 X10_snapshot_overwrites_early_live_message
             (boot SSEPage.initial (answers (snapshot_of [msgA; msgB])))
             (snapshot_of [msgA; msgB]) [msgA; msgB] msgC "3");
      try reflexivity.
    vm_compute. intros Hin.
    apply elem_of_cons in Hin as [?|Hin%list_elem_of_singleton]; done.
Defined.

(** ** Looking an id up after an event *)

Lemma list_find_middle {A} (P : A → Prop) `{!∀ x, Decision (P x)}
    (l1 : list A) x l2 :
  Forall (λ y, ¬ P y) l1 → P x →
  list_find P (l1 ++ x :: l2) = Some (length l1, x).
Proof.
  intros Hl1 Hx. apply list_find_Some. split_and!.
  - by rewrite list_lookup_middle.
  - done.
  - intros j y Hj Hlt. rewrite lookup_app_l in Hj by done.
    eapply Forall_lookup_1 in Hl1; eauto.
Qed.

Lemma upsert_has_entry (l : list Message.t) msg :
  entry_of (Message._id msg)
    match findIndex (λ m, Message._id m = Message._id msg) l with
    | Some i => <[i := msg]> l
    | None => l ++ [msg]
    end
  = Some msg.
Proof.
  unfold entry_of.
  destruct (findIndex _ l) as [i|] eqn:E.
  - apply findIndex_split in E as (l1 & x & l2 & -> & <- & Hx & Hl1).
    by rewrite insert_middle, (list_find_middle _ l1 msg l2).
  - apply findIndex_None in E.
    by rewrite (list_find_middle _ l msg []).
Qed.

(** X11.  After an event has been applied, the entry found under its id
    is that event: always on the SSE page (the last event for an id
    wins), and on the WebSocket page when the id is non-empty and was not
    in the id set. *)
Theorem X11_entry_after_event_is_the_event :
  (∀ (w : World SSEPage.State) msg,
     entry_of (Message._id msg)
       (SSEPage.messages (page (run (SSEPage.handleNewMessage msg) w)))
     = Some msg)
  ∧ (∀ (w : World WebSocketPage.State) msg id,
       truthy (Message._id msg) = Some id →
       id ∉ WebSocketPage.messageIds (page w) →
       entry_of (Message._id msg)
         (WebSocketPage.messages
            (page (run (WebSocketPage.handleNewMessage msg) w)))
       = Some msg).
Proof.
  split.
  - intros w msg. rewrite sse_apply. apply upsert_has_entry.
  - intros w msg id Hid Hin.
    destruct (ws_apply_fresh w msg id Hid Hin) as (-> & _).
    apply upsert_has_entry.
Qed.

Lemma X11_entry_after_event_is_the_event_witness :
  entry_of (Message._id msgB')
    (WebSocketPage.messages
       (page (run (WebSocketPage.handleNewMessage msgB')
                (boot WebSocketPage.initial offline))))
  = Some msgB'.
Proof.
  apply (proj2 X11_entry_after_event_is_the_event
           (boot WebSocketPage.initial offline) msgB' "2").
  - reflexivity.
  - vm_compute. set_solver.
Defined.

Lemma upsert_other_ids (l : list Message.t) msg (id' : option string) :
  id' ≠ Message._id msg →
  filter (λ m, Message._id m = id')
    match findIndex (λ m, Message._id m = Message._id msg) l with
    | Some i => <[i := msg]> l
    | None => l ++ [msg]
    end
  = filter (λ m, Message._id m = id') l.
Proof.
  intros Hne. destruct (findIndex _ l) as [i|] eqn:E.
  - apply findIndex_split in E as (l1 & x & l2 & -> & <- & Hx & Hl1).
    rewrite insert_middle, !filter_app, !filter_cons.
    rewrite !decide_False by congruence. done.
  - rewrite filter_app, filter_cons, decide_False by congruence.
    by rewrite filter_nil, app_nil_r.
Qed.

(** X12.  An event touches no entry of another id: the entries that
    carry an id other than the event's are the same, in the same order,
    before and after, on both pages. *)
Theorem X12_event_leaves_other_ids_alone :
  (∀ (w : World WebSocketPage.State) msg (id' : option string),
     id' ≠ Message._id msg →
     filter (λ m, Message._id m = id')
       (WebSocketPage.messages
          (page (run (WebSocketPage.handleNewMessage msg) w)))
     = filter (λ m, Message._id m = id') (WebSocketPage.messages (page w)))
  ∧ (∀ (w : World SSEPage.State) msg (id' : option string),
       id' ≠ Message._id msg →
       filter (λ m, Message._id m = id')
         (SSEPage.messages (page (run (SSEPage.handleNewMessage msg) w)))
       = filter (λ m, Message._id m = id') (SSEPage.messages (page w))).
Proof.
  split; intros w msg id' Hne.
  - destruct (truthy (Message._id msg)) as [id|] eqn:Hid.
    + destruct (decide (id ∈ WebSocketPage.messageIds (page w))) as [Hin|Hin].
      * by destruct (ws_apply_tracked w msg id Hid Hin) as [-> _].
      * destruct (ws_apply_fresh w msg id Hid Hin) as (-> & _).
        by apply upsert_other_ids.
    + destruct (ws_apply_no_id w msg Hid) as (-> & _).
      rewrite filter_app, filter_cons, decide_False by congruence.
      by rewrite filter_nil, app_nil_r.
  - rewrite sse_apply. by apply upsert_other_ids.
Qed.

Lemma X12_event_leaves_other_ids_alone_witness :
  let w := run SSEPage.loadMessages
             (boot SSEPage.initial
                (answers (snapshot_of [msgA; msgB; msgC]))) in
  filter (λ m, Message._id m = Some "1")
    (SSEPage.messages (page (run (SSEPage.handleNewMessage msgB') w)))
  = filter (λ m, Message._id m = Some "1") (SSEPage.messages (page w))
  ∧ filter (λ m, Message._id m = Some "1")
      (WebSocketPage.messages
         (page (run (WebSocketPage.handleNewMessage msgB')
                  (boot WebSocketPage.initial offline))))
    = filter (λ m, Message._id m = Some "1")
        (WebSocketPage.messages (page (boot WebSocketPage.initial offline))).
Proof.
  intros w. split.
  - apply (proj2 X12_event_leaves_other_ids_alone w msgB' (Some "1")). done.
  - apply (proj1 X12_event_leaves_other_ids_alone
             (boot WebSocketPage.initial offline) msgB' (Some "1")). done.
Defined.

(** ** Entries stay where they are *)

Lemma upsert_id_prefix (l : list Message.t) msg :
  (Message._id <$> l) `prefix_of`
  (Message._id <$>
     match findIndex (λ m, Message._id m = Message._id msg) l with
     | Some i => <[i := msg]> l
     | None => l ++ [msg]
     end).
Proof.
  destruct (findIndex _ l) as [i|] eqn:E.
  - apply findIndex_split in E as (l1 & x & l2 & -> & <- & Hx & Hl1).
    rewrite insert_middle, !fmap_app, !fmap_cons, Hx. done.
  - rewrite fmap_app. by apply prefix_app_r.
Qed.

Lemma ws_apply_id_prefix w msg :
  (Message._id <$> WebSocketPage.messages (page w)) `prefix_of`
  (Message._id <$> WebSocketPage.messages
                     (page (run (WebSocketPage.handleNewMessage msg) w))).
Proof.
  destruct (truthy (Message._id msg)) as [id|] eqn:Hid.
  - destruct (decide (id ∈ WebSocketPage.messageIds (page w))) as [Hin|Hin].
    + by destruct (ws_apply_tracked w msg id Hid Hin) as [-> _].
    + destruct (ws_apply_fresh w msg id Hid Hin) as (-> & _).
      apply upsert_id_prefix.
  - destruct (ws_apply_no_id w msg Hid) as (-> & _).
    rewrite fmap_app. by apply prefix_app_r.
Qed.

(** X13.  Events never remove an entry and never move one: after any
    sequence of events the ids of the old collection, position by
    position, are the beginning of the ids of the new one, on both
    pages. *)
Theorem X13_events_never_remove_or_move_entries :
  (∀ events (w : World WebSocketPage.State),
     (Message._id <$> WebSocketPage.messages (page w)) `prefix_of`
     (Message._id <$> WebSocketPage.messages
        (page (dispatch WebSocketPage.handleNewMessage events w))))
  ∧ (∀ events (w : World SSEPage.State),
       (Message._id <$> SSEPage.messages (page w)) `prefix_of`
       (Message._id <$> SSEPage.messages
          (page (dispatch SSEPage.handleNewMessage events w)))).
Proof.
  split; induction events as [|e events IH]; intros w; try done.
  - rewrite dispatch_cons. etrans; [apply ws_apply_id_prefix|apply IH].
  - rewrite dispatch_cons. etrans; [|apply IH].
    rewrite sse_apply. apply upsert_id_prefix.
Qed.

(** ** The id set over a whole session *)

Lemma ws_apply_ids_grow w msg :
  WebSocketPage.messageIds (page w)
  ⊆ WebSocketPage.messageIds
      (page (run (WebSocketPage.handleNewMessage msg) w)).
Proof.
  destruct (truthy (Message._id msg)) as [id|] eqn:Hid.
  - destruct (decide (id ∈ WebSocketPage.messageIds (page w))) as [Hin|Hin].
    + by destruct (ws_apply_tracked w msg id Hid Hin) as [-> _].
    + destruct (ws_apply_fresh w msg id Hid Hin) as (_ & -> & _).
      apply union_subseteq_r.
  - by destruct (ws_apply_no_id w msg Hid) as (_ & -> & _).
Qed.

Lemma ws_perform_ids_grow a w :
  WebSocketPage.messageIds (page w)
  ⊆ WebSocketPage.messageIds (page (run (ws_perform a) w)).
Proof.
  destruct a as [net| |ev|s|v|v|m|v| | |id]; try done.
  - simpl.
    destruct (backend w (GET "http://localhost:4877/messages")) as [|r] eqn:Hb.
    { destruct (ws_load_failure w) as [-> _]; auto. }
    destruct (parsed (payload r)) as [l|] eqn:Hl.
    + destruct (ws_load_success w r l Hb Hl) as [_ ->].
      apply union_subseteq_r.
    + destruct (ws_load_failure w) as [-> _]; eauto.
  - simpl. destruct (parsed (data ev)) as [msg|] eqn:Hev.
    + rewrite (ws_onmessage_decoded ev msg w Hev).
      etrans; [|apply ws_apply_ids_grow]. done.
    + by destruct (ws_onmessage_malformed ev w Hev) as [-> _].
  - by destruct s.
  - simpl. by destruct (ws_sendMessage_frame w) as [_ ->].
  - simpl. by destruct (ws_saveEdit_frame id w) as [_ ->].
Qed.

Lemma ws_perform_reachable a w :
  ws_reachable w → ws_reachable (run (ws_perform a) w).
Proof.
  intros Hw. destruct a as [net| |ev|s|v|v|m|v| | |id]; simpl.
  - by apply ws_network.
  - by apply ws_load.
  - by apply ws_frame.
  - destruct s; [by apply ws_open|by apply ws_close|by apply ws_error].
  - by apply ws_type_text.
  - by apply ws_type_author.
  - by apply ws_start_edit.
  - by apply (ws_start_edit (WebSocketPage.editingId (page w)) v).
  - by apply (ws_start_edit None (WebSocketPage.editText (page w))).
  - by apply ws_send.
  - by apply ws_save.
Qed.

Lemma ws_session_reachable actions : ∀ w,
  ws_reachable w → ws_reachable (dispatch ws_perform actions w).
Proof.
  induction actions as [|a actions IH]; intros w Hw; [done|].
  rewrite dispatch_cons. by apply IH, ws_perform_reachable.
Qed.

Lemma ws_session_ids_grow actions : ∀ w,
  WebSocketPage.messageIds (page w)
  ⊆ WebSocketPage.messageIds (page (dispatch ws_perform actions w)).
Proof.
  induction actions as [|a actions IH]; intros w; [done|].
  rewrite dispatch_cons. etrans; [apply ws_perform_ids_grow|apply IH].
Qed.

(** X14.  The WebSocket page never forgets an id.  Whatever happens on
    the page (snapshot loads, frames, transport signals, typing,
    editing, sending, under any backend), the id set only grows; so an
    id that is in the set is skipped for the rest of the session: every
    later event that carries it leaves the page as it is. *)
Theorem X14_tracked_id_is_skipped_for_good :
  ∀ actions (w : World WebSocketPage.State) msg id,
    ws_reachable w →
    Message._id msg = Some id →
    id ∈ WebSocketPage.messageIds (page w) →
    WebSocketPage.messageIds (page w)
    ⊆ WebSocketPage.messageIds (page (dispatch ws_perform actions w))
    ∧ page (run (WebSocketPage.handleNewMessage msg)
              (dispatch ws_perform actions w))
      = page (dispatch ws_perform actions w).
Proof.
  intros actions w msg id Hw Hid Hin.
  pose proof (ws_session_ids_grow actions w) as Hsub. split; [done|].
  apply ws_apply_tracked with id; [|by apply Hsub].
  apply truthy_of_present; [done|]. intros ->.
  by apply (ws_reachable_tracked w Hw).
Qed.

Lemma X14_tracked_id_is_skipped_for_good_witness :
  let w := run WebSocketPage.loadMessages
             (boot WebSocketPage.initial
                (answers (snapshot_of [msgA; msgB; msgC]))) in
  let actions := [Transport Closed; Network offline; LoadMessages;
                  Frame (frame msgC); Transport Opened] in
  WebSocketPage.messageIds (page w)
  ⊆ WebSocketPage.messageIds (page (dispatch ws_perform actions w))
  ∧ page (run (WebSocketPage.handleNewMessage msgB')
            (dispatch ws_perform actions w))
    = page (dispatch ws_perform actions w).
Proof.
  intros w actions.
  apply (X14_tracked_id_is_skipped_for_good actions w msgB' "2").
  - apply ws_load, ws_mount.
  - reflexivity.
  - vm_compute. reflexivity.
Defined.

(** ** The rendered page *)

Lemma filter_fmap_comp {A B} (f : A → B) (P : B → Prop)
    `{!∀ y, Decision (P y)} (l : list A) :
  filter P (f <$> l) = f <$> filter (λ x, P (f x)) l.
Proof.
  induction l as [|x l IH]; [done|]. rewrite fmap_cons, !filter_cons.
  case_decide; by rewrite IH.
Qed.

Lemma filter_nothing {A} (P : A → Prop) `{!∀ x, Decision (P x)}
    (l : list A) :
  Forall (λ x, ¬ P x) l → filter P l = [].
Proof.
  induction 1 as [|x l Hx _ IH]; [done|].
  by rewrite filter_cons, decide_False.
Qed.

Section view_properties.
Context `{Platform}.

(** X15.  The send button is disabled exactly when a click on it would
    send nothing, and the Enter key in the text field sends exactly when
    the button is enabled, on both pages. *)
Theorem X15_send_button_disabled_iff_nothing_to_send :
  (∀ w : World WebSocketPage.State,
     let v := ws_view (page w) in
     (send_disabled v = true ↔ sent (run (send_onClick v) w) = sent w)
     ∧ (send_disabled v = true
        ↔ sent (run (text_onKeyPress v "Enter") w) = sent w))
  ∧ (∀ w : World SSEPage.State,
       let v := sse_view (page w) in
       (send_disabled v = true ↔ sent (run (send_onClick v) w) = sent w)
       ∧ (send_disabled v = true
          ↔ sent (run (text_onKeyPress v "Enter") w) = sent w)).
Proof.
  split; intros w v.
  - assert (send_disabled v = true
            ↔ sent (run WebSocketPage.sendMessage w) = sent w) as Hiff.
    { unfold v. simpl. destruct (_ || _) eqn:Hb.
      - split; [|done]. intros _. unfold run.
        by rewrite (ws_sendMessage_blank w Hb).
      - split; [done|]. rewrite (ws_sendMessage_sends w Hb).
        by intros ?%snoc_neq. }
    split; [done|]. exact Hiff.
  - assert (send_disabled v = true
            ↔ sent (run SSEPage.sendMessage w) = sent w) as Hiff.
    { unfold v. simpl. destruct (_ || _) eqn:Hb.
      - split; [|done]. intros _. unfold run.
        by rewrite (sse_sendMessage_blank w Hb).
      - split; [done|]. rewrite (sse_sendMessage_sends w Hb).
        by intros ?%snoc_neq. }
    split; [done|]. exact Hiff.
Qed.

Lemma ws_row_is_editor s m :
  is_editor (bubble (ws_row s m)) = true
  ↔ ∃ id, WebSocketPage.editingId s = Some id ∧ Message._id m = Some id.
Proof.
  unfold ws_row. simpl.
  destruct (WebSocketPage.editingId s) as [e|], (Message._id m) as [i|];
    simpl; try (split; [done|by intros (? & ? & ?)]).
  case_decide; simpl.
  - subst. split; eauto.
  - split; [done|]. intros (? & ? & ?). congruence.
Qed.

Lemma sse_row_is_editor s m :
  is_editor (bubble (sse_row s m)) = true
  ↔ ∃ id, SSEPage.editingId s = Some id ∧ Message._id m = Some id.
Proof.
  unfold sse_row. simpl.
  destruct (SSEPage.editingId s) as [e|], (Message._id m) as [i|];
    simpl; try (split; [done|by intros (? & ? & ?)]).
  case_decide; simpl.
  - subst. split; eauto.
  - split; [done|]. intros (? & ? & ?). congruence.
Qed.

Lemma ws_editors_rows s :
  editors (ws_view s)
  = ws_row s <$> filter (λ m, is_editor (bubble (ws_row s m)) = true)
                   (WebSocketPage.messages s).
Proof.
  unfold editors, ws_view. cbn [area].
  destruct (WebSocketPage.messages s) as [|m l]; [done|].
  cbn [rows_of]. apply filter_fmap_comp.
Qed.

Lemma sse_editors_rows s :
  editors (sse_view s)
  = sse_row s <$> filter (λ m, is_editor (bubble (sse_row s m)) = true)
                    (SSEPage.messages s).
Proof.
  unfold editors, sse_view. cbn [area].
  destruct (SSEPage.messages s) as [|m l]; [done|].
  cbn [rows_of]. apply filter_fmap_comp.
Qed.

Lemma at_most_one_with_id (P : Message.t → Prop) `{!∀ m, Decision (P m)}
    (l : list Message.t) id :
  (∀ m, P m → Message._id m = Some id) →
  NoDup (present_ids l) →
  length (filter P l) ≤ 1.
Proof.
  intros HP. unfold present_ids.
  induction l as [|m l IH]; intros Hnd; [simpl; lia|].
  rewrite filter_cons. case_decide as Hm.
  - simpl in Hnd. rewrite (HP m Hm) in Hnd. simpl in Hnd.
    apply NoDup_cons in Hnd as [Hnot _].
    replace (filter P l) with (@nil Message.t); [simpl; lia|].
    symmetry. apply filter_nothing, Forall_forall.
    intros m' Hm' HPm'. apply Hnot, list_elem_of_omap.
    exists m'. split; [done|]. by apply HP.
  - apply IH. simpl in Hnd. destruct (Message._id m); simpl in Hnd; [|done].
    by apply NoDup_cons in Hnd as [_ ?].
Qed.

(** X16.  In a collection where no id occurs twice, at most one row
    shows the edit box, on both pages. *)
Theorem X16_at_most_one_edit_box :
  (∀ s : WebSocketPage.State,
     NoDup (present_ids (WebSocketPage.messages s)) →
     length (editors (ws_view s)) ≤ 1)
  ∧ (∀ s : SSEPage.State,
       NoDup (present_ids (SSEPage.messages s)) →
       length (editors (sse_view s)) ≤ 1).
Proof.
  split; intros s Hnd.
  - rewrite ws_editors_rows, length_fmap.
    destruct (WebSocketPage.editingId s) as [e|] eqn:He.
    + apply at_most_one_with_id with e; [|done].
      intros m (id & Hid & Hm)%ws_row_is_editor. congruence.
    + replace (filter _ _) with (@nil Message.t); [simpl; lia|].
      symmetry. apply filter_nothing, Forall_forall.
      intros m _ (id & Hid & _)%ws_row_is_editor. congruence.
  - rewrite sse_editors_rows, length_fmap.
    destruct (SSEPage.editingId s) as [e|] eqn:He.
    + apply at_most_one_with_id with e; [|done].
      intros m (id & Hid & Hm)%sse_row_is_editor. congruence.
    + replace (filter _ _) with (@nil Message.t); [simpl; lia|].
      symmetry. apply filter_nothing, Forall_forall.
      intros m _ (id & Hid & _)%sse_row_is_editor. congruence.
Qed.

(** X17.  A click on the pencil of a message opens the edit box on that
    message, filled with its text, when the message has a non-empty id.
    When it has no id, or the empty string for one, no edit box is shown
    anywhere after the click. *)
Theorem X17_pencil_opens_edit_box_unless_no_id :
  (∀ (w : World WebSocketPage.State) m onEdit,
     bubble (ws_row (page w) m) = Body (Message.text m) (Some onEdit) →
     match truthy (Message._id m) with
     | Some id =>
         bubble (ws_row (page (run onEdit w)) m)
         = Editor (Message.text m) WebSocketPage.setEditText
             (Some (λ k, if decide (k = "Enter")
                         then WebSocketPage.saveEdit id else mret ()))
             (WebSocketPage.saveEdit id)
             (Some (WebSocketPage.setEditingId None))
     | None => editors (ws_view (page (run onEdit w))) = []
     end)
  ∧ (∀ (w : World SSEPage.State) m onEdit,
       bubble (sse_row (page w) m) = Body (Message.text m) (Some onEdit) →
       match truthy (Message._id m) with
       | Some id =>
           bubble (sse_row (page (run onEdit w)) m)
           = Editor (Message.text m) SSEPage.setEditText None
               (SSEPage.saveEdit id) None
       | None => editors (sse_view (page (run onEdit w))) = []
       end).
Proof.
  split; intros w m onEdit Hrow.
  - assert (onEdit = (WebSocketPage.setEditingId (truthy (Message._id m));;
                      WebSocketPage.setEditText (Message.text m))) as ->.
    { unfold ws_row in Hrow. simpl in Hrow.
      destruct (WebSocketPage.editingId (page w)), (Message._id m);
        repeat case_decide; by simplify_eq. }
    destruct (truthy (Message._id m)) as [id|] eqn:Hid.
    + apply truthy_Some in Hid as [Hid _]. unfold ws_row. simpl.
      rewrite Hid. by rewrite decide_True.
    + rewrite ws_editors_rows.
      replace (filter _ _) with (@nil Message.t); [done|].
      symmetry. apply filter_nothing, Forall_forall.
      by intros m' _ (id & Hid' & _)%ws_row_is_editor.
  - assert (onEdit = (SSEPage.setEditingId (truthy (Message._id m));;
                      SSEPage.setEditText (Message.text m))) as ->.
    { unfold sse_row in Hrow. simpl in Hrow.
      destruct (SSEPage.editingId (page w)), (Message._id m);
        repeat case_decide; by simplify_eq. }
    destruct (truthy (Message._id m)) as [id|] eqn:Hid.
    + apply truthy_Some in Hid as [Hid _]. unfold sse_row. simpl.
      rewrite Hid. by rewrite decide_True.
    + rewrite sse_editors_rows.
      replace (filter _ _) with (@nil Message.t); [done|].
      symmetry. apply filter_nothing, Forall_forall.
      by intros m' _ (id & Hid' & _)%sse_row_is_editor.
Qed.
End view_properties.

Lemma X16_at_most_one_edit_box_witness :
  let s := page (run (WebSocketPage.setEditingId (Some "2"))
                   (run WebSocketPage.loadMessages
                      (boot WebSocketPage.initial
                         (answers (snapshot_of [msgA; msgB; msgC]))))) in
  let s' := page (run (SSEPage.setEditingId (Some "2"))
                    (run SSEPage.loadMessages
                       (boot SSEPage.initial
                          (answers (snapshot_of [msgA; msgB; msgC]))))) in
  length (editors (@ws_view ascii_platform s)) ≤ 1
  ∧ length (editors (@sse_view ascii_platform s')) ≤ 1.
Proof.
  intros s s'.
  assert (Hnd : NoDup (present_ids [msgA; msgB; msgC])).
  { apply (bool_decide_unpack _). by vm_compute. }
  split.
  - exact (proj1 (@X16_at_most_one_edit_box ascii_platform) s Hnd).
  - exact (proj2 (@X16_at_most_one_edit_box ascii_platform) s' Hnd).
Defined.

Lemma X17_pencil_opens_edit_box_unless_no_id_witness :
  let w := run (WebSocketPage.setAuthor "Bo")
             (run WebSocketPage.loadMessages
                (boot WebSocketPage.initial
                   (answers (snapshot_of [msgA; msgB; msgC])))) in
  let w' := run (SSEPage.setAuthor "Bo")
              (run (SSEPage.handleNewMessage anon2)
                 (boot SSEPage.initial offline)) in
  bubble (@ws_row ascii_platform
            (page (run (WebSocketPage.setEditingId (Some "2");;
                        WebSocketPage.setEditText "yo") w)) msgB)
  = Editor "yo" WebSocketPage.setEditText
      (Some (λ k, if decide (k = "Enter")
                  then WebSocketPage.saveEdit "2" else mret ()))
      (WebSocketPage.saveEdit "2")
      (Some (WebSocketPage.setEditingId None))
  ∧ editors (@sse_view ascii_platform
               (page (run (SSEPage.setEditingId None;;
                           SSEPage.setEditText "second") w')))
    = [].
Proof.
  intros w w'. split.
  - exact (proj1 (@X17_pencil_opens_edit_box_unless_no_id ascii_platform)
             w msgB _ eq_refl).
  - exact (proj2 (@X17_pencil_opens_edit_box_unless_no_id ascii_platform)
             w' anon2 _ eq_refl).
Defined.

(** ** Navigation *)

(** X18.  In the navigation bar a tab is highlighted exactly when its
    link is the current path; the two links differ, so at most one tab
    is highlighted, and none on any other path. *)
Theorem X18_tab_is_active_iff_it_is_the_current_path :
  ∀ pathname,
    Forall (λ t, tab_active t ↔ href t = pathname) (Navigation pathname)
    ∧ NoDup (href <$> Navigation pathname).
Proof.
  intros pathname. split.
  - unfold Navigation, tab_active.
    repeat apply Forall_cons_2; [| |apply Forall_nil_2]; simpl.
    + case_decide as Hp; [by subst|]. split; [|by intros <-].
      by intros ?%(f_equal String.length).
    + case_decide as Hp; [by subst|]. split; [|by intros <-].
      by intros ?%(f_equal String.length).
  - simpl. apply NoDup_cons. split; [|apply NoDup_singleton].
    by intros ?%list_elem_of_singleton.
Qed.

(** ** What incoming data leaves alone *)

Lemma ws_apply_inputs w msg :
  ws_inputs (page (run (WebSocketPage.handleNewMessage msg) w))
  = ws_inputs (page w)
  ∧ sent (run (WebSocketPage.handleNewMessage msg) w) = sent w.
Proof.
  unfold_ws. unfold_host. simpl.
  destruct (truthy _); simpl; [|done]. case_decide; simpl; [done|].
  by destruct (findIndex _ _).
Qed.

Lemma ws_onmessage_inputs ev w :
  ws_inputs (page (run (WebSocketPage.onmessage ev) w)) = ws_inputs (page w)
  ∧ sent (run (WebSocketPage.onmessage ev) w) = sent w.
Proof.
  destruct (parsed (data ev)) as [msg|] eqn:Hev.
  - rewrite (ws_onmessage_decoded ev msg w Hev).
    by destruct (ws_apply_inputs
                   (run (emit (console_log "WebSocket received:")) w) msg)
      as [-> ->].
  - unfold WebSocketPage.onmessage. unfold_host. by rewrite Hev.
Qed.

Lemma sse_onmessage_inputs ev w :
  sse_inputs (page (run (SSEPage.onmessage ev) w)) = sse_inputs (page w)
  ∧ sent (run (SSEPage.onmessage ev) w) = sent w.
Proof.
  unfold run. destruct (parsed (data ev)) as [msg|] eqn:Hev.
  - by rewrite (sse_onmessage_decoded ev msg w Hev).
  - by rewrite (sse_onmessage_malformed ev w Hev).
Qed.

(** X19.  Incoming frames, decodable or not, never send a request and
    never touch what the user is doing: after any sequence of frames
    the typed text and author, the message being edited and the edit
    text are as before, on both pages. *)
Theorem X19_frames_leave_typing_and_editing_alone :
  (∀ events (w : World WebSocketPage.State),
     ws_inputs (page (dispatch WebSocketPage.onmessage events w))
     = ws_inputs (page w)
     ∧ sent (dispatch WebSocketPage.onmessage events w) = sent w)
  ∧ (∀ events (w : World SSEPage.State),
       sse_inputs (page (dispatch SSEPage.onmessage events w))
       = sse_inputs (page w)
       ∧ sent (dispatch SSEPage.onmessage events w) = sent w).
Proof.
  split; induction events as [|ev events IH]; intros w; try done.
  - rewrite dispatch_cons.
    destruct (IH (run (WebSocketPage.onmessage ev) w)) as [-> ->].
    apply ws_onmessage_inputs.
  - rewrite dispatch_cons.
    destruct (IH (run (SSEPage.onmessage ev) w)) as [-> ->].
    apply sse_onmessage_inputs.
Qed.

(** ** The WebSocket page in the states it can reach *)

(** X20.  In every state the WebSocket page can reach, the id set holds
    every non-empty id that occurs in the collection, and does not hold
    the empty string. *)
Theorem X20_collection_ids_are_tracked :
  ∀ w, ws_reachable w →
    (∀ m id, m ∈ WebSocketPage.messages (page w) →
             Message._id m = Some id → id ≠ "" →
             id ∈ WebSocketPage.messageIds (page w))
    ∧ "" ∉ WebSocketPage.messageIds (page w).
Proof.
  intros w [Hne Hsub]%ws_reachable_tracked. split; [|done].
  intros m id Hm Hid Hnonempty. apply Hsub, list_elem_of_omap.
  exists m. split; [done|]. by apply truthy_of_present.
Qed.

Lemma X20_collection_ids_are_tracked_witness :
  let w := dispatch ws_perform
             [Frame (frame msgC); LoadMessages; Frame (frame blank)]
             (boot WebSocketPage.initial
                (answers (snapshot_of [msgA; msgB]))) in
  (∀ m id, m ∈ WebSocketPage.messages (page w) →
           Message._id m = Some id → id ≠ "" →
           id ∈ WebSocketPage.messageIds (page w))
  ∧ "" ∉ WebSocketPage.messageIds (page w).
Proof.
  intros w. apply (X20_collection_ids_are_tracked w).
  apply ws_session_reachable, ws_mount.
Defined.

(** X21.  Hence, in every state the WebSocket page can reach, an event
    either leaves the collection as it is or is appended to it: no event
    ever changes an entry that is there. *)
Theorem X21_websocket_never_rewrites_an_entry :
  ∀ w msg, ws_reachable w →
    WebSocketPage.messages (page (run (WebSocketPage.handleNewMessage msg) w))
    = WebSocketPage.messages (page w)
    ∨ WebSocketPage.messages
        (page (run (WebSocketPage.handleNewMessage msg) w))
      = WebSocketPage.messages (page w) ++ [msg].
Proof. intros w msg Hw. by apply ws_update_branch_is_dead. Qed.

Lemma X21_websocket_never_rewrites_an_entry_witness :
  let w := run WebSocketPage.loadMessages
             (boot WebSocketPage.initial
                (answers (snapshot_of [msgA; msgB; msgC]))) in
  WebSocketPage.messages (page (run (WebSocketPage.handleNewMessage msgB') w))
  = WebSocketPage.messages (page w)
  ∨ WebSocketPage.messages
      (page (run (WebSocketPage.handleNewMessage msgB') w))
    = WebSocketPage.messages (page w) ++ [msgB'].
Proof.
  intros w. apply (X21_websocket_never_rewrites_an_entry w msgB').
  apply ws_load, ws_mount.
Defined.
